(** * ip_lookup: hedged multi-provider IP lookup

    A shallow embedding of [ip_lookup.py] (cache, normalisation helpers,
    the three provider adapters, the merge and the lookup orchestrator)
    together with the properties its specification states about it.

    Conventions of the embedding:
    - a Python value that comes out of [r.json()] or [json.loads] is a
      [pyval];
    - Python [str] is Rocq [string], and the text is ASCII: [upper],
      [lower] and [strip] are [str.upper], [str.lower] and [str.strip] on
      ASCII text. Python also maps letters and strips white space outside
      that range; on text holding such characters the embedding and the
      code differ, and nothing below is claimed about it;
    - Python [float] is IEEE binary64, as [spec_float] with [prec = 53]
      and [emax = 1024];
    - code that may raise lives in the error monad [exc]; [try/except
      Exception] is [try_except];
    - [os.environ] is a [gmap string string], the HTTP client a function
      from requests to outcomes;
    - the dict every adapter returns has a fixed set of keys and is the
      record [record]; it is never empty, hence always truthy. *)

From Stdlib Require Import ZArith Ascii String List Sorted DecimalString SpecFloat.
From stdpp Require Import gmap strings list fin_maps.
Import ListNotations.

Local Open Scope Z_scope.
Local Set Warnings "-clear-no-such-hyp".

(* ===================================================================== *)
(** ** Python values and exceptions *)
(* ===================================================================== *)

(** [PList] and [PDict] hold the items in order; the keys of a dict are
    distinct. No induction over [pyval] is needed: the code never
    recurses into a JSON value. *)
Local Unset Elimination Schemes.
Inductive pyval :=
  | PNone
  | PBool (b : bool)
  | PInt (z : Z)
  | PFloat (f : spec_float)
  | PStr (s : string)
  | PList (l : list pyval)
  | PDict (kvs : list (string * pyval)).
Local Set Elimination Schemes.

(** The exception classes the code can meet; all of them derive from
    [Exception]. [asyncio.CancelledError] does not, and is no outcome of
    a call: it reaches a task through [cancel], after which nothing reads
    the task's result. *)
Inductive exn :=
  | TypeError
  | AttributeError
  | KeyError
  | IndexError
  | ValueError
  | OverflowError
  | TransportError
  | JSONDecodeError.

Definition exc (A : Type) : Type := (exn + A)%type.

Definition ret {A} (a : A) : exc A := inr a.
Definition raise {A} (e : exn) : exc A := inl e.
Definition bind {A B} (m : exc A) (k : A -> exc B) : exc B :=
  match m with
  | inl e => inl e
  | inr a => k a
  end.

Notation "x <- c1 ;; c2" := (bind c1 (fun x => c2))
  (at level 100, c1 at next level, right associativity).

(** [try: body / except Exception: handler]: every member of [exn] is an
    [Exception], so the handler takes them all. *)
Definition try_except {A} (body : exc A) (handler : exn -> exc A) : exc A :=
  match body with
  | inl e => handler e
  | inr a => ret a
  end.

(** Truth value of a Python object ([bool(v)]). *)
Definition truthy (v : pyval) : bool :=
  match v with
  | PNone => false
  | PBool b => b
  | PInt z => negb (z =? 0)
  | PFloat (S754_zero _) => false
  | PFloat _ => true
  | PStr s => negb (String.eqb s "")
  | PList l => match l with [] => false | _ => true end
  | PDict kvs => match kvs with [] => false | _ => true end
  end.

(** [a or b]. *)
Definition py_or (a b : pyval) : pyval := if truthy a then a else b.

Fixpoint assoc (k : string) (kvs : list (string * pyval)) : option pyval :=
  match kvs with
  | [] => None
  | (k', v) :: rest => if String.eqb k k' then Some v else assoc k rest
  end.

(** [d.get(k)]: only a dict has the method among JSON values. *)
Definition py_get (d : pyval) (k : string) : exc pyval :=
  match d with
  | PDict kvs => ret (default PNone (assoc k kvs))
  | _ => raise AttributeError
  end.

(** [d[k] = v] on the items of a dict: the value under a key that is
    there is replaced where it stands, a new key goes last. *)
Fixpoint assoc_set (k : string) (v : pyval) (kvs : list (string * pyval))
    : list (string * pyval) :=
  match kvs with
  | [] => [(k, v)]
  | (k', v') :: rest =>
      if String.eqb k k' then (k', v) :: rest else (k', v') :: assoc_set k v rest
  end.

(** [x[k] = v] for a [str] key: among JSON values only a dict takes it;
    a list wants an integer index, the others support no item
    assignment. *)
Definition py_setitem (x : pyval) (k : string) (v : pyval) : exc pyval :=
  match x with
  | PDict kvs => ret (PDict (assoc_set k v kvs))
  | _ => raise TypeError
  end.

(** [x[0]]. *)
Definition py_index0 (x : pyval) : exc pyval :=
  match x with
  | PList (v :: _) => ret v
  | PList [] => raise IndexError
  | PStr (String c _) => ret (PStr (String c ""))
  | PStr "" => raise IndexError
  | PDict _ => raise KeyError
  | _ => raise TypeError
  end.

(** A method of [str] called on [v]: [AttributeError] on anything else. *)
Definition as_str (v : pyval) : exc string :=
  match v with
  | PStr s => ret s
  | _ => raise AttributeError
  end.

(* ===================================================================== *)
(** ** Strings *)
(* ===================================================================== *)

Definition ascii_code (c : ascii) : Z := Z.of_N (N_of_ascii c).

Definition upper_char (c : ascii) : ascii :=
  let n := ascii_code c in
  if (97 <=? n) && (n <=? 122) then ascii_of_N (Z.to_N (n - 32)) else c.

Definition lower_char (c : ascii) : ascii :=
  let n := ascii_code c in
  if (65 <=? n) && (n <=? 90) then ascii_of_N (Z.to_N (n + 32)) else c.

Fixpoint str_map (f : ascii -> ascii) (s : string) : string :=
  match s with
  | "" => ""
  | String c r => String (f c) (str_map f r)
  end.

(** [s.upper()] and [s.lower()] for ASCII [s]: the 26 letters change
    case, everything else stays. Python's methods follow Unicode and map
    letters outside ASCII too (some to more than one character); these
    do not. *)
Definition upper : string -> string := str_map upper_char.
Definition lower : string -> string := str_map lower_char.

Fixpoint mem_char (c : ascii) (cs : string) : bool :=
  match cs with
  | "" => false
  | String c' r => Ascii.eqb c c' || mem_char c r
  end.

(** [s.lstrip(chars)]: drops the longest prefix made of characters of
    [chars] (a set of characters, not a prefix string). *)
Fixpoint lstrip (chars s : string) : string :=
  match s with
  | "" => ""
  | String c r => if mem_char c chars then lstrip chars r else s
  end.

(** White space of [str.strip()] in the ASCII range: tab to carriage
    return, the four separators 28 to 31, the space. Python strips
    Unicode white space outside ASCII as well (U+00A0, U+3000, ...);
    [strip] below does not. *)
Definition is_space (c : ascii) : bool :=
  let n := ascii_code c in
  ((9 <=? n) && (n <=? 13)) || ((28 <=? n) && (n <=? 32)).

Fixpoint lstrip_ws (s : string) : string :=
  match s with
  | "" => ""
  | String c r => if is_space c then lstrip_ws r else s
  end.

Fixpoint rstrip_ws (s : string) : string :=
  match s with
  | "" => ""
  | String c r =>
      match rstrip_ws r with
      | "" => if is_space c then "" else String c ""
      | r' => String c r'
      end
  end.

Definition strip (s : string) : string := rstrip_ws (lstrip_ws s).

Fixpoint is_prefix (p s : string) : bool :=
  match p, s with
  | "", _ => true
  | String a p', String b s' => Ascii.eqb a b && is_prefix p' s'
  | _, "" => false
  end.

(** [needle in hay]. *)
Fixpoint contains (needle hay : string) : bool :=
  is_prefix needle hay ||
  match hay with
  | "" => false
  | String _ r => contains needle r
  end.

(** [s.split(" ", 1)]: the text before the first space and, when there is
    a space, the text after it. *)
Fixpoint split_space1 (s : string) : string * option string :=
  match s with
  | "" => ("", None)
  | String c r =>
      if Ascii.eqb c " "%char then ("", Some r)
      else let '(a, b) := split_space1 r in (String c a, b)
  end.

(** [s.split(" ", 1)[0]] and [s.split(" ", 1)[-1]]. *)
Definition split1_first (s : string) : string := fst (split_space1 s).
Definition split1_last (s : string) : string :=
  match snd (split_space1 s) with
  | Some r => r
  | None => s
  end.

Definition str_of_Z (z : Z) : string := NilEmpty.string_of_int (Z.to_int z).

(* ===================================================================== *)
(** ** Floats *)
(* ===================================================================== *)

Definition prec : Z := 53.
Definition emax : Z := 1024.

(** The float nearest to [m * 10^e]: what a decimal literal of the source
    or of a JSON body denotes. *)
Definition float_of_dec (m e : Z) : spec_float :=
  match e with
  | Zneg p =>
      match m with
      | 0 => S754_zero false
      | _ =>
          let '(q, e', l) :=
            SFdiv_core_binary prec emax (Z.abs m) 0 (10 ^ Zpos p) 0 in
          binary_round_aux prec emax (m <? 0) q e' l
      end
  | _ => binary_normalize prec emax (m * 10 ^ e) 0 false
  end.

(** [float(n)] for an [int]: [OverflowError] when out of range. *)
Definition float_of_int (z : Z) : exc spec_float :=
  match binary_normalize prec emax z 0 false with
  | S754_infinity _ => raise OverflowError
  | f => ret f
  end.

Definition float_le (a b : spec_float) : bool := SFleb a b.
Definition float_lt (a b : spec_float) : bool := SFltb a b.
Definition float_add (a b : spec_float) : spec_float := SFadd prec emax a b.

Definition digit_char (d : Z) : ascii := ascii_of_N (Z.to_N (48 + d)).

Definition is_digit (c : ascii) : bool :=
  let n := ascii_code c in (48 <=? n) && (n <=? 57).

(** The six digits of [n mod 10^6], leading zeros kept. *)
Definition pad6 (n : Z) : string :=
  String (digit_char (n / 100000 mod 10))
 (String (digit_char (n / 10000 mod 10))
 (String (digit_char (n / 1000 mod 10))
 (String (digit_char (n / 100 mod 10))
 (String (digit_char (n / 10 mod 10))
 (String (digit_char (n mod 10)) ""))))).

(** [round(m * 2^e * 10^6)], ties to even, on the exact value. *)
Definition scaled6 (m : positive) (e : Z) : Z :=
  let num := Zpos m * 1000000 in
  match e with
  | Zneg p =>
      let den := 2 ^ Zpos p in
      let q := num / den in
      let r := num mod den in
      match 2 * r ?= den with
      | Lt => q
      | Gt => q + 1
      | Eq => if Z.even q then q else q + 1
      end
  | _ => num * 2 ^ e
  end.

Definition sign_str (s : bool) : string := if s then "-" else "".

(** [f"{x:.6f}"]. *)
Definition fmt6 (x : spec_float) : string :=
  match x with
  | S754_nan => "nan"
  | S754_infinity s => sign_str s +:+ "inf"
  | S754_zero s => sign_str s +:+ "0" +:+ "." +:+ pad6 0
  | S754_finite s m e =>
      let n := scaled6 m e in
      sign_str s +:+ str_of_Z (n / 1000000) +:+ "." +:+ pad6 n
  end.

(* ===================================================================== *)
(** ** The normalised record *)
(* ===================================================================== *)

Record asn_block := {
  asn_asn : string;
  asn_name : string;
  asn_domain : string;
  asn_type : string }.

Record company_block := {
  co_name : string;
  co_domain : string;
  co_type : string }.

Record privacy_block := {
  vpn : bool;
  proxy : bool;
  tor : bool;
  relay : bool;
  hosting : bool }.

(** The dict an adapter returns. [confidence] and [age_ms] are keys the
    merge adds; [None] stands for a key that is not there. *)
Record record := {
  r_ip : pyval;
  r_city : pyval;
  r_region : pyval;
  r_region_code : pyval;
  r_country : pyval;
  r_country_code : pyval;
  r_continent : pyval;
  r_continent_code : pyval;
  r_loc : pyval;
  r_postal : pyval;
  r_timezone : pyval;
  r_asn : asn_block;
  r_company : company_block;
  r_privacy : privacy_block;
  r_source : list string;
  r_confidence : option spec_float;
  r_age_ms : option Z }.

(* ===================================================================== *)
(** ** HTTP client and environment *)
(* ===================================================================== *)

Record request := {
  url : string;
  params : list (string * string) }.

(** What the code reads of an [httpx.Response]; [json] is the outcome of
    [r.json()]. *)
Record response := {
  status_code : Z;
  json : exc pyval }.

(** [await client.get(...)]: a transport failure or a response. *)
Definition AsyncClient : Type := request -> exc response.

Definition getenv (environ : gmap string string) (k dflt : string) : string :=
  default dflt (environ !! k).

(* ===================================================================== *)
(** ** Utilities *)
(* ===================================================================== *)

Section Builtins.

(** Two builtins are not unfolded: [float] on a [str], and [str] on a
    float, list or dict (their [repr]). *)
Variable float_of_str : string -> exc spec_float.
Variable repr : pyval -> string.

(** [float(v)]. *)
Definition py_float (v : pyval) : exc spec_float :=
  match v with
  | PNone => raise TypeError
  | PBool b => ret (if b then float_of_dec 1 0 else S754_zero false)
  | PInt z => float_of_int z
  | PFloat f => ret f
  | PStr s => float_of_str s
  | PList _ | PDict _ => raise TypeError
  end.

(** [str(v)]. *)
Definition py_str (v : pyval) : string :=
  match v with
  | PNone => "None"
  | PBool b => if b then "True" else "False"
  | PInt z => str_of_Z z
  | PStr s => s
  | _ => repr v
  end.

Definition _norm_coord (lat lon : pyval) : exc pyval :=
  returned <-
    try_except
      (la <- py_float lat ;;
       lo <- py_float lon ;;
       if float_le (float_of_dec (-90) 0) la && float_le la (float_of_dec 90 0)
          && float_le (float_of_dec (-180) 0) lo && float_le lo (float_of_dec 180 0)
       then ret (Some (fmt6 la +:+ "," +:+ fmt6 lo))
       else ret None)
      (fun _ => ret None) ;;
  match returned with
  | Some s => ret (PStr s)
  | None => ret PNone
  end.

Definition hosting_keywords : list string :=
  ["aws"; "amazon"; "google"; "gcp"; "azure"; "microsoft"; "cloudflare"; "ovh";
   "digitalocean"; "hetzner"; "aliyun"; "akamai"; "fastly"; "oracle cloud"].

Definition _isp_to_company (isp : pyval) : exc company_block :=
  isp <- (s <- as_str (py_or isp (PStr "")) ;; ret (strip s)) ;;
  let company_type :=
    if existsb (fun k => contains k (lower isp)) hosting_keywords
    then "hosting" else "isp" in
  ret {| co_name := isp; co_domain := ""; co_type := company_type |}.

Definition _asn_block (asn org : pyval) : exc asn_block :=
  let a := upper (py_str (py_or asn (PStr ""))) in
  let a := lstrip "AS" a in
  (* [org or ""] is stored under "name" and lower-cased under "type":
     the dict exists only when it is a str *)
  name <- as_str (py_or org (PStr "")) ;;
  ret {| asn_asn := if String.eqb a "" then "" else "AS" +:+ a;
         asn_name := name;
         asn_domain := "";
         asn_type := if contains "cloud" (lower name) then "hosting" else "isp" |}.

Definition _privacy_guess (company_type : string) : privacy_block :=
  let hosting := String.eqb company_type "hosting" in
  {| vpn := false; proxy := false; tor := false; relay := false;
     hosting := hosting |}.

(** [a or b] with [b] evaluated only when [a] is falsy. *)
Definition py_or_else (a : pyval) (b : exc pyval) : exc pyval :=
  if truthy a then ret a else b.

(* ===================================================================== *)
(** ** Providers *)
(* ===================================================================== *)

Definition ipapi_request (ip : string) : request :=
  {| url := "https://ipapi.co/" +:+ ip +:+ "/json/"; params := [] |}.

Definition ipinfo_request (ip token : string) : request :=
  {| url := "https://ipinfo.io/" +:+ ip +:+ "?token=" +:+ token; params := [] |}.

Definition bigdatacloud_request (ip key : string) : request :=
  {| url := "https://api.bigdatacloud.net/data/ip-geolocation";
     params := [("ip", ip); ("localityLanguage", "en"); ("key", key)] |}.

Definition p_ipapi (ip : string) (client : AsyncClient) : exc (option record) :=
  try_except
    (r <- client (ipapi_request ip) ;;
     if negb (status_code r =? 200) then ret None else
     d <- json r ;;
     latitude <- py_get d "latitude" ;;
     longitude <- py_get d "longitude" ;;
     loc <- _norm_coord latitude longitude ;;
     isp <- py_get d "org" ;;
     d_ip <- py_get d "ip" ;;
     city <- py_get d "city" ;;
     region <- py_get d "region" ;;
     region_code <- py_get d "region_code" ;;
     country_name <- py_get d "country_name" ;;
     country <- py_get d "country" ;;
     postal <- py_get d "postal" ;;
     timezone <- py_get d "timezone" ;;
     d_asn <- py_get d "asn" ;;
     d_org <- py_get d "org" ;;
     asn <- _asn_block d_asn d_org ;;
     company <- _isp_to_company isp ;;
     company' <- _isp_to_company isp ;;
     ret (Some {|
       r_ip := py_or d_ip (PStr ip);
       r_city := city;
       r_region := region;
       r_region_code := region_code;
       r_country := country_name;
       r_country_code := country;
       r_continent := PNone;
       r_continent_code := PNone;
       r_loc := loc;
       r_postal := postal;
       r_timezone := timezone;
       r_asn := asn;
       r_company := company;
       r_privacy := _privacy_guess (co_type company');
       r_source := ["ipapi.co"];
       r_confidence := None;
       r_age_ms := None |}))
    (fun _ => ret None).

Definition p_ipinfo (environ : gmap string string) (ip : string)
    (client : AsyncClient) : exc (option record) :=
  let token := getenv environ "IPINFO_TOKEN" "" in
  if String.eqb token "" then ret None else
  try_except
    (r <- client (ipinfo_request ip token) ;;
     if negb (status_code r =? 200) then ret None else
     d <- json r ;;
     loc <- py_get d "loc" ;;
     org <- py_get d "org" ;;
     let org_field := py_or org (PStr "") in
     isp <- (if truthy org_field
             then s <- as_str org_field ;; ret (PStr (split1_last s))
             else ret PNone) ;;
     asn_code <- (if truthy org_field
                  then s <- as_str org_field ;; ret (PStr (split1_first s))
                  else ret PNone) ;;
     d_ip <- py_get d "ip" ;;
     city <- py_get d "city" ;;
     region <- py_get d "region" ;;
     country <- py_get d "country" ;;
     postal <- py_get d "postal" ;;
     timezone <- py_get d "timezone" ;;
     asn <- _asn_block asn_code isp ;;
     company <- _isp_to_company isp ;;
     company' <- _isp_to_company isp ;;
     ret (Some {|
       r_ip := py_or d_ip (PStr ip);
       r_city := city;
       r_region := region;
       r_region_code := PNone;
       r_country := PNone;
       r_country_code := country;
       r_continent := PNone;
       r_continent_code := PNone;
       r_loc := loc;
       r_postal := postal;
       r_timezone := timezone;
       r_asn := asn;
       r_company := company;
       r_privacy := _privacy_guess (co_type company');
       r_source := ["ipinfo.io"];
       r_confidence := None;
       r_age_ms := None |}))
    (fun _ => ret None).

Definition p_bigdatacloud (environ : gmap string string) (ip : string)
    (client : AsyncClient) : exc (option record) :=
  let key := getenv environ "BDC_KEY" "" in
  if String.eqb key "" then ret None else
  try_except
    (r <- client (bigdatacloud_request ip key) ;;
     if negb (status_code r =? 200) then ret None else
     d <- json r ;;
     loc <- (v <- py_get d "location" ;; ret (py_or v (PDict []))) ;;
     country <- (v <- py_get d "country" ;; ret (py_or v (PDict []))) ;;
     net <- (v <- py_get d "network" ;; ret (py_or v (PDict []))) ;;
     latitude <- py_get loc "latitude" ;;
     longitude <- py_get loc "longitude" ;;
     coord <- _norm_coord latitude longitude ;;
     region_name <- (v <- py_get loc "principalSubdivision" ;;
                     py_or_else v (py_get loc "isoPrincipalSubdivision")) ;;
     region_code <- py_get loc "isoPrincipalSubdivisionCode" ;;
     city <- (v <- py_get loc "city" ;; py_or_else v (py_get loc "localityName")) ;;
     postal <- (v <- py_get loc "postcode" ;; ret (py_or v PNone)) ;;
     tz <- (v <- py_get loc "timeZone" ;; py_get (py_or v (PDict [])) "ianaTimeId") ;;
     continent <- py_get loc "continent" ;;
     continent_code <- py_get loc "continentCode" ;;
     country_name <- (v <- py_get country "name" ;;
                      py_or_else v (py_get net "registeredCountryName")) ;;
     country_code <- (v <- py_get country "isoAlpha2" ;;
                      py_or_else v (w <- py_get country "isoCode" ;;
                                    py_or_else w (py_get net "registeredCountry"))) ;;
     carriers <- (v <- py_get net "carriers" ;; ret (py_or v (PList []))) ;;
     primary_carrier <- (if truthy carriers then py_index0 carriers
                         else ret (PDict [])) ;;
     asn_code <- (v <- py_get primary_carrier "asn" ;;
                  py_or_else v (py_get net "asn")) ;;
     org <- (v <- py_get primary_carrier "organisation" ;;
             py_or_else v (py_get net "organisation")) ;;
     asn <- _asn_block asn_code org ;;
     company <- _isp_to_company org ;;
     company' <- _isp_to_company org ;;
     ret (Some {|
       r_ip := PStr ip;
       r_city := city;
       r_region := region_name;
       r_region_code := region_code;
       r_country := country_name;
       r_country_code := country_code;
       r_continent := continent;
       r_continent_code := continent_code;
       r_loc := coord;
       r_postal := postal;
       r_timezone := tz;
       r_asn := asn;
       r_company := company;
       r_privacy := _privacy_guess (co_type company');
       r_source := ["bigdatacloud"];
       r_confidence := None;
       r_age_ms := None |}))
    (fun _ => ret None).

End Builtins.

(* ===================================================================== *)
(** ** Merge *)
(* ===================================================================== *)

Definition score (d : record) : Z :=
  let s := 0 in
  let s := if truthy (r_loc d) then s + 3 else s in
  let s := if truthy (r_timezone d) then s + 1 else s in
  let s := if truthy (r_country d) || truthy (r_country_code d) then s + 1 else s in
  let s := if negb (String.eqb (asn_asn (r_asn d)) "") then s + 1 else s in
  s.

(** [l.sort(key=key, reverse=True)]. Python's sort is stable, also under
    [reverse=True]: elements with equal keys keep their order. That fixes
    the outcome, which insertion from the right computes. *)
Fixpoint insert_desc {A} (key : A -> Z) (x : A) (l : list A) : list A :=
  match l with
  | [] => [x]
  | y :: l' => if key x <? key y then y :: insert_desc key x l' else x :: l
  end.

Definition sort_desc {A} (key : A -> Z) (l : list A) : list A :=
  foldr (insert_desc key) [] l.

(** [list(dict.fromkeys(l))]: the keys in order of first insertion;
    [seen] is the keys already in the dict. *)
Fixpoint fromkeys_from (seen l : list string) : list string :=
  match l with
  | [] => []
  | k :: r =>
      if bool_decide (k ∈ seen) then fromkeys_from seen r
      else k :: fromkeys_from (k :: seen) r
  end.

Definition fromkeys (l : list string) : list string := fromkeys_from [] l.

(** The literals [0.9], [0.7] and [0.6]. *)
Definition conf_high : spec_float := float_of_dec 9 (-1).
Definition conf_loc : spec_float := float_of_dec 7 (-1).
Definition conf_low : spec_float := float_of_dec 6 (-1).

Definition set_source (r : record) (s : list string) : record :=
  {| r_ip := r_ip r; r_city := r_city r; r_region := r_region r;
     r_region_code := r_region_code r; r_country := r_country r;
     r_country_code := r_country_code r; r_continent := r_continent r;
     r_continent_code := r_continent_code r; r_loc := r_loc r;
     r_postal := r_postal r; r_timezone := r_timezone r; r_asn := r_asn r;
     r_company := r_company r; r_privacy := r_privacy r;
     r_source := s;
     r_confidence := r_confidence r; r_age_ms := r_age_ms r |}.

Definition set_confidence (r : record) (c : spec_float) : record :=
  {| r_ip := r_ip r; r_city := r_city r; r_region := r_region r;
     r_region_code := r_region_code r; r_country := r_country r;
     r_country_code := r_country_code r; r_continent := r_continent r;
     r_continent_code := r_continent_code r; r_loc := r_loc r;
     r_postal := r_postal r; r_timezone := r_timezone r; r_asn := r_asn r;
     r_company := r_company r; r_privacy := r_privacy r;
     r_source := r_source r;
     r_confidence := Some c; r_age_ms := r_age_ms r |}.

Definition set_age_ms (r : record) (a : Z) : record :=
  {| r_ip := r_ip r; r_city := r_city r; r_region := r_region r;
     r_region_code := r_region_code r; r_country := r_country r;
     r_country_code := r_country_code r; r_continent := r_continent r;
     r_continent_code := r_continent_code r; r_loc := r_loc r;
     r_postal := r_postal r; r_timezone := r_timezone r; r_asn := r_asn r;
     r_company := r_company r; r_privacy := r_privacy r;
     r_source := r_source r;
     r_confidence := r_confidence r; r_age_ms := Some a |}.

Definition _merge_first_good (results : list record) : option record :=
  match results with
  | [] => None
  | _ =>
      let results := sort_desc score results in
      match results with
      | [] => None (* not reached: sorting keeps the length *)
      | best :: _ =>
          let srcs := concat (map r_source results) in
          let best := set_source best (fromkeys srcs) in
          let best :=
            set_confidence best
              (if (2 <=? Z.of_nat (length (r_source best))) && truthy (r_loc best)
               then conf_high
               else if truthy (r_loc best) then conf_loc else conf_low) in
          let best := set_age_ms best 0 in
          Some best
      end
  end.

(* ===================================================================== *)
(** ** Cache *)
(* ===================================================================== *)

(** What [Cache.get] hands back when it hands back something: the dict
    that a [Cache.set] put in the in-memory mapping, which is a record,
    or the value [json.loads] made of the text Redis held, which can be
    any JSON value (JSON [null] comes back as [Loaded PNone]). *)
Inductive cache_value :=
  | Rec (val : record)
  | Loaded (v : pyval).

(** What [await self._redis.get(key)] followed by [json.loads] can do:
    the call raises, there is no (or an empty) value, or there is a raw
    value that [json.loads] turns into a JSON value or rejects. *)
Inductive redis_get_outcome :=
  | RedisGetRaises (e : exn)
  | RedisGetNil
  | RedisGetRaw (loaded : exc pyval).

(** The Redis connection: its answers, and the SETEX commands that went
    through, latest first. [redis_setex_fails] covers both [json.dumps]
    and the command itself. *)
Record Redis := {
  redis_get : string -> redis_get_outcome;
  redis_setex_fails : string -> Z -> record -> bool;
  redis_written : list (string * Z * record) }.

Record Cache := {
  _mem : gmap string (spec_float * record);
  _redis : option Redis }.

(** [Cache.get]; [now] is what [time.time()] returns. *)
Definition Cache_get (self : Cache) (now : spec_float) (key : string)
    : exc (option cache_value) * Cache :=
  match _redis self with
  | Some rd =>
      match redis_get rd key with
      | RedisGetRaises e => (raise e, self)
      | RedisGetNil => (ret None, self)
      | RedisGetRaw loaded =>
          (try_except (v <- loaded ;; ret (Some (Loaded v))) (fun _ => ret None), self)
      end
  | None =>
      match _mem self !! key with
      | None => (ret None, self)
      | Some (exp, val) =>
          if float_lt exp now
          then (ret None, {| _mem := delete key (_mem self); _redis := _redis self |})
          else (ret (Some (Rec val)), self)
      end
  end.

(** The in-memory branch of [Cache.set]. *)
Definition Cache_set_mem (self : Cache) (now : spec_float) (key : string)
    (val : record) (ttl : Z) : exc unit * Cache :=
  match float_of_int ttl with
  | inl e => (raise e, self)
  | inr t =>
      (ret tt, {| _mem := <[key := (float_add now t, val)]> (_mem self);
                  _redis := _redis self |})
  end.

Definition Cache_set (self : Cache) (now : spec_float) (key : string)
    (val : record) (ttl : Z) : exc unit * Cache :=
  match _redis self with
  | Some rd =>
      if redis_setex_fails rd key ttl val
      then Cache_set_mem self now key val ttl
      else (ret tt,
            {| _mem := _mem self;
               _redis := Some {| redis_get := redis_get rd;
                                 redis_setex_fails := redis_setex_fails rd;
                                 redis_written := (key, ttl, val) :: redis_written rd |} |})
  | None => Cache_set_mem self now key val ttl
  end.

(** [Cache.__init__]: the in-memory mapping starts empty; Redis is used
    when [REDIS_URL] is set and the client can be made. [from_url] stands
    for the import of [redis.asyncio] and [aioredis.from_url]. *)
Definition Cache_init (REDIS_URL : string) (from_url : string -> exc Redis)
    : exc Cache :=
  let _mem := ∅ in
  let _redis := None in
  _redis <- (if negb (String.eqb REDIS_URL "")
             then try_except (rd <- from_url REDIS_URL ;; ret (Some rd))
                             (fun _ => ret None)
             else ret _redis) ;;
  ret {| _mem := _mem; _redis := _redis |}.

(* ===================================================================== *)
(** ** Public API *)
(* ===================================================================== *)

(** Everything [lookup_ip] reads from outside its arguments. Event-loop
    time is in milliseconds; a delay takes its nominal duration. *)
Record Runtime := {
  (** [float] on a [str], [str] on a float, list or dict *)
  rt_float_of_str : string -> exc spec_float;
  rt_repr : pyval -> string;
  (** [ipaddress.ip_address] *)
  ip_address : string -> exc unit;
  environ : gmap string string;
  (** [int(os.getenv("IPCACHE_TTL_SEC", "1800"))], read at import *)
  CACHE_TTL_SEC_DEFAULT : Z;
  (** the [httpx.AsyncClient] of the call *)
  client : AsyncClient;
  (** how long the [n]-th provider's coroutine runs once started;
      [None]: it does not finish *)
  latency : nat -> option Z;
  (** event-loop time when the first tasks are created *)
  loop_time : Z;
  (** [time.time()] inside [cache.get] and [cache.set] *)
  time_at_get : spec_float;
  time_at_set : spec_float;
  (** iteration order of the set [done] *)
  done_order : list nat -> list nat }.

Definition _validate_ip (R : Runtime) (ip : string) : exc string :=
  _ <- ip_address R ip ;;
  ret ip.

Definition provider : Type := string -> AsyncClient -> exc (option record).

Definition providers (R : Runtime) : list (nat * provider) :=
  [(0%nat, p_ipapi (rt_float_of_str R) (rt_repr R));
   (1%nat, p_ipinfo (rt_repr R) (environ R));
   (2%nat, p_bigdatacloud (rt_float_of_str R) (rt_repr R) (environ R))].

(** An [asyncio] task: which provider it runs, when it was created, when
    it finishes and what [t.result()] gives then. *)
Record task := {
  t_provider : nat;
  t_launch : Z;
  t_finish : option Z;
  t_result : exc (option record) }.

Definition create_task (R : Runtime) (ip : string) (now : Z)
    (p : nat * provider) : task :=
  {| t_provider := fst p;
     t_launch := now;
     t_finish := (fun d => now + d) <$> latency R (fst p);
     t_result := snd p ip (client R) |}.

Definition finished_by (deadline : Z) (t : task) : bool :=
  match t_finish t with
  | Some f => f <=? deadline
  | None => false
  end.

(** [asyncio.wait(tasks, timeout=...)] called at [now]. *)
Definition asyncio_wait (tasks : list task) (now timeout : Z)
    : list task * list task :=
  (filter (fun t => finished_by (now + timeout) t = true) tasks,
   filter (fun t => finished_by (now + timeout) t = false) tasks).

Record hedge_run := {
  tasks_primary : list task;
  tasks_secondary : list task;
  deadline : Z;
  done : list task;
  pending : list task;
  results : list record;
  cancelled : list task }.

Definition nth_task (ts : list task) (i : nat) : list task :=
  filter (fun t => t_provider t = i) ts.

(** The body of the [async with] block: two tasks, [asyncio.sleep(0.2)],
    the third task, [asyncio.wait(..., timeout=1.6)], the results of the
    done tasks, [cancel] on the pending ones. *)
Definition hedge (R : Runtime) (ip : string) : hedge_run :=
  let now := loop_time R in
  let tasks_primary := map (create_task R ip now) (take 2 (providers R)) in
  (* await asyncio.sleep(0.2) *)
  let now := now + 200 in
  let tasks_secondary := map (create_task R ip now) (drop 2 (providers R)) in
  let '(done, pending) := asyncio_wait (tasks_primary ++ tasks_secondary) now 1600 in
  (* for t in done: [done] is a set *)
  let iterated := flat_map (nth_task done) (done_order R (map t_provider done)) in
  let results :=
    flat_map (fun t => match t_result t with
                       | inr (Some r) => [r]
                       | inr None => []
                       | inl _ => []
                       end) iterated in
  {| tasks_primary := tasks_primary;
     tasks_secondary := tasks_secondary;
     deadline := now + 1600;
     done := done;
     pending := pending;
     results := results;
     cancelled := pending |}.

(** What [cached["age_ms"] = 0] does to the cache on a hit: with the
    in-memory backend the dict that was returned is the one the mapping
    holds; with Redis it is a value of its own. *)
Definition touch_age (cache : Cache) (ck : string) : Cache :=
  match _redis cache with
  | Some _ => cache
  | None =>
      {| _mem := alter (fun item => (fst item, set_age_ms (snd item) 0)) ck (_mem cache);
         _redis := None |}
  end.

(** [if cached:], the truth value of what [cache.get] returned. A record
    is a non-empty dict. *)
Definition cached_truthy (cached : option cache_value) : bool :=
  match cached with
  | None => false
  | Some (Rec _) => true
  | Some (Loaded v) => truthy v
  end.

(** [cached["age_ms"] = 0], giving [cached] after the assignment. *)
Definition cached_set_age_ms (cached : option cache_value)
    : exc (option cache_value) :=
  match cached with
  | None => raise TypeError
  | Some (Rec val) => ret (Some (Rec (set_age_ms val 0)))
  | Some (Loaded v) =>
      v <- py_setitem v "age_ms" (PInt 0) ;;
      ret (Some (Loaded v))
  end.

Definition lookup_ip (R : Runtime) (cache : Cache) (ip : string)
    : exc (option cache_value) * Cache :=
  match _validate_ip R ip with
  | inl e => (raise e, cache)
  | inr _ =>
      let ck := "ip:" +:+ ip in
      let '(cached, cache) := Cache_get cache (time_at_get R) ck in
      match cached with
      | inl e => (raise e, cache)
      | inr cached =>
          if cached_truthy cached then
            match cached_set_age_ms cached with
            | inl e => (raise e, cache)
            | inr cached => (ret cached, touch_age cache ck)
            end
          else
            let results := results (hedge R ip) in
            let merged := _merge_first_good results in
            match merged with
            | Some m =>
                let ttl := CACHE_TTL_SEC_DEFAULT R in
                let ttl := if hosting (r_privacy m) then Z.min ttl 600 else ttl in
                let '(written, cache) := Cache_set cache (time_at_set R) ck m ttl in
                match written with
                | inl e => (raise e, cache)
                | inr _ => (ret (Rec <$> merged), cache)
                end
            | None => (ret (Rec <$> merged), cache)
            end
      end
  end.

(* ===================================================================== *)
(** * Vocabulary of the properties *)
(* ===================================================================== *)

(** [a] and [b] agree on every key but "source", "confidence", "age_ms". *)
Definition same_body (a b : record) : Prop :=
  r_ip a = r_ip b ∧ r_city a = r_city b ∧ r_region a = r_region b
  ∧ r_region_code a = r_region_code b ∧ r_country a = r_country b
  ∧ r_country_code a = r_country_code b ∧ r_continent a = r_continent b
  ∧ r_continent_code a = r_continent_code b ∧ r_loc a = r_loc b
  ∧ r_postal a = r_postal b ∧ r_timezone a = r_timezone b
  ∧ r_asn a = r_asn b ∧ r_company a = r_company b
  ∧ r_privacy a = r_privacy b.

Definition two_distinct (l : list string) : Prop :=
  ∃ a b, a ≠ b ∧ a ∈ l ∧ b ∈ l.

(** What the merge returns for a winner [best] at the head of [ranked]. *)
Definition merged_of (best : record) (ranked : list record) : record :=
  let src := fromkeys (concat (map r_source ranked)) in
  set_age_ms
    (set_confidence (set_source best src)
       (if (2 <=? Z.of_nat (length src)) && truthy (r_loc best) then conf_high
        else if truthy (r_loc best) then conf_loc else conf_low)) 0.

(** What a provider call can go wrong with: the request fails in
    transport (time-outs included), the status is not 200 (so every
    non-2xx status), the body is not JSON. *)
Definition transport_error (o : exc response) : Prop := ∃ e, o = inl e.
Definition bad_status (o : exc response) : Prop :=
  ∃ r, o = inr r ∧ status_code r ≠ 200.
Definition bad_json (o : exc response) : Prop :=
  ∃ r, o = inr r ∧ ∃ e, json r = inl e.
Definition no_data (o : exc response) : Prop :=
  transport_error o ∨ bad_status o ∨ bad_json o.

(** The records the system makes: what an adapter returns, and what the
    merge returns on such records. *)
Inductive produced : record -> Prop :=
  | produced_ipapi float_of_str repr ip client r :
      p_ipapi float_of_str repr ip client = inr (Some r) → produced r
  | produced_ipinfo repr environ ip client r :
      p_ipinfo repr environ ip client = inr (Some r) → produced r
  | produced_bigdatacloud float_of_str repr environ ip client r :
      p_bigdatacloud float_of_str repr environ ip client = inr (Some r) →
      produced r
  | produced_merge results r :
      (∀ c, c ∈ results → produced c) →
      _merge_first_good results = Some r → produced r.

(** "AS" and then a non-empty text that does not start with A or S. *)
Definition asn_prefixed (s : string) : Prop :=
  ∃ c rest, s = "AS" +:+ String c rest ∧ c ≠ "A"%char ∧ c ≠ "S"%char.

(** "AS" and then digits, at least one. *)
Definition is_as_digits (s : string) : bool :=
  match s with
  | String "A" (String "S" (String d ds)) =>
      forallb is_digit (list_ascii_of_string (String d ds))
  | _ => false
  end.

(** A decimal point followed by exactly six digits, at the end. *)
Definition six_decimals (s : string) : Prop :=
  ∃ whole frac,
    s = whole +:+ "." +:+ frac
    ∧ String.length frac = 6%nat
    ∧ forallb is_digit (list_ascii_of_string frac) = true.

Definition in_range (lo hi : Z) (x : spec_float) : Prop :=
  float_le (float_of_dec lo 0) x = true ∧ float_le x (float_of_dec hi 0) = true.

(** The "loc" the schema asks for: absent, or two in-range coordinates
    rendered with six decimals and joined by a comma. *)
Definition normalised_loc (v : pyval) : Prop :=
  v = PNone
  ∨ ∃ la lo,
      in_range (-90) 90 la ∧ in_range (-180) 180 lo
      ∧ v = PStr (fmt6 la +:+ "," +:+ fmt6 lo)
      ∧ six_decimals (fmt6 la) ∧ six_decimals (fmt6 lo).

(** The same format, checked on the text: an optional sign, digits, a
    point, six digits; twice, with a comma between. *)
Fixpoint all_digits (s : string) : bool :=
  match s with
  | "" => true
  | String c r => is_digit c && all_digits r
  end.

Fixpoint split_at (sep : ascii) (s : string) : string * option string :=
  match s with
  | "" => ("", None)
  | String c r =>
      if Ascii.eqb c sep then ("", Some r)
      else let '(a, b) := split_at sep r in (String c a, b)
  end.

Definition coord_text_ok (s : string) : bool :=
  let s := match s with String "-" r => r | _ => s end in
  match split_at "." s with
  | (whole, Some frac) =>
      negb (String.eqb whole "") && all_digits whole
      && (String.length frac =? 6)%nat && all_digits frac
  | _ => false
  end.

Definition loc_text_ok (s : string) : bool :=
  match split_at "," s with
  | (la, Some lo) => coord_text_ok la && coord_text_ok lo
  | _ => false
  end.

(** [r] is what one of the three adapters returned. *)
Definition adapter_output (float_of_str : string -> exc spec_float)
    (repr : pyval -> string) (environ : gmap string string) (ip : string)
    (client : AsyncClient) (r : record) : Prop :=
  p_ipapi float_of_str repr ip client = inr (Some r)
  ∨ p_ipinfo repr environ ip client = inr (Some r)
  ∨ p_bigdatacloud float_of_str repr environ ip client = inr (Some r).

(** The three provider tags. *)
Definition provider_tags : list string := ["ipapi.co"; "ipinfo.io"; "bigdatacloud"].

(* ===================================================================== *)
(** * Data of the closed examples *)
(* ===================================================================== *)

(** Records for the closed examples: one with coordinates, time zone,
    country code and ASN, one with coordinates only, one with neither. *)
Definition no_asn : asn_block :=
  {| asn_asn := ""; asn_name := ""; asn_domain := ""; asn_type := "isp" |}.

Definition no_company : company_block :=
  {| co_name := ""; co_domain := ""; co_type := "isp" |}.

Definition bare_record (ip : string) (src : list string) : record :=
  {| r_ip := PStr ip; r_city := PNone; r_region := PNone; r_region_code := PNone;
     r_country := PNone; r_country_code := PNone; r_continent := PNone;
     r_continent_code := PNone; r_loc := PNone; r_postal := PNone;
     r_timezone := PNone; r_asn := no_asn; r_company := no_company;
     r_privacy := _privacy_guess "isp"; r_source := src;
     r_confidence := None; r_age_ms := None |}.

Definition located_record (ip : string) (src : list string) : record :=
  {| r_ip := PStr ip; r_city := PNone; r_region := PNone; r_region_code := PNone;
     r_country := PNone; r_country_code := PNone; r_continent := PNone;
     r_continent_code := PNone; r_loc := PStr "37.500000,-122.300000";
     r_postal := PNone; r_timezone := PNone; r_asn := no_asn;
     r_company := no_company; r_privacy := _privacy_guess "isp";
     r_source := src; r_confidence := None; r_age_ms := None |}.

Definition full_record (ip : string) (src : list string) : record :=
  {| r_ip := PStr ip; r_city := PNone; r_region := PNone; r_region_code := PNone;
     r_country := PNone; r_country_code := PStr "US"; r_continent := PNone;
     r_continent_code := PNone; r_loc := PStr "37.500000,-122.300000";
     r_postal := PNone; r_timezone := PStr "America/Los_Angeles";
     r_asn := {| asn_asn := "AS15169"; asn_name := "Google LLC";
                 asn_domain := ""; asn_type := "isp" |};
     r_company := {| co_name := "Google LLC"; co_domain := ""; co_type := "hosting" |};
     r_privacy := _privacy_guess "hosting";
     r_source := src; r_confidence := None; r_age_ms := None |}.

Definition empty_cache : Cache := {| _mem := ∅; _redis := None |}.

(** A clock reading of [n] seconds. *)
Definition seconds (n : Z) : spec_float := float_of_dec n 0.

(** A cache whose only entry expired at second 1000. *)
Definition stale_cache : Cache :=
  {| _mem := {[ "ip:8.8.8.8" := (seconds 1000, bare_record "8.8.8.8" ["a"]) ]};
     _redis := None |}.

(** Stand-ins for the two builtins left abstract, for closed examples:
    their JSON bodies hold only None, bool, int, float and str values and
    numeric coordinates, on which neither builtin is reached. *)
Definition float_of_str_unreached : string -> exc spec_float :=
  fun _ => raise ValueError.
Definition repr_unreached : pyval -> string := fun _ => "".

(** What ipapi.co answers for a Google address. *)
Definition google_body : pyval :=
  PDict [("ip", PStr "8.8.8.8");
         ("latitude", PFloat (float_of_dec 375 (-1)));
         ("longitude", PFloat (float_of_dec (-1223) (-1)));
         ("country", PStr "US");
         ("timezone", PStr "America/Los_Angeles");
         ("asn", PStr "AS15169");
         ("org", PStr "Google LLC")].

Definition client_of (body : pyval) : AsyncClient :=
  fun _ => ret {| status_code := 200; json := ret body |}.

Definition client_down : AsyncClient := fun _ => raise TransportError.

(** A run with no provider key configured, a default TTL of 30 minutes,
    every provider's coroutine taking [delay] ms, any address accepted. *)
Definition runtime_of (c : AsyncClient) (delay : Z) : Runtime :=
  {| rt_float_of_str := float_of_str_unreached;
     rt_repr := repr_unreached;
     ip_address := fun _ => ret tt;
     environ := ∅;
     CACHE_TTL_SEC_DEFAULT := 1800;
     client := c;
     latency := fun _ => Some delay;
     loop_time := 0;
     time_at_get := seconds 1001;
     time_at_set := seconds 1002;
     done_order := fun l => l |}.

(** The record the lookup of 8.8.8.8 merges when ipapi.co alone answers. *)
Definition google_merged : record :=
  {| r_ip := PStr "8.8.8.8"; r_city := PNone; r_region := PNone;
     r_region_code := PNone; r_country := PNone; r_country_code := PStr "US";
     r_continent := PNone; r_continent_code := PNone;
     r_loc := PStr "37.500000,-122.300000"; r_postal := PNone;
     r_timezone := PStr "America/Los_Angeles";
     r_asn := {| asn_asn := "AS15169"; asn_name := "Google LLC";
                 asn_domain := ""; asn_type := "isp" |};
     r_company := {| co_name := "Google LLC"; co_domain := ""; co_type := "hosting" |};
     r_privacy := _privacy_guess "hosting";
     r_source := ["ipapi.co"]; r_confidence := Some conf_loc; r_age_ms := Some 0 |}.

(** What [p_ipinfo] returns for the body [{"org": "Google LLC"}]. *)
Definition google_llc_record : record :=
  {| r_ip := PStr "8.8.8.8"; r_city := PNone; r_region := PNone;
     r_region_code := PNone; r_country := PNone; r_country_code := PNone;
     r_continent := PNone; r_continent_code := PNone; r_loc := PNone;
     r_postal := PNone; r_timezone := PNone;
     r_asn := {| asn_asn := "ASGOOGLE"; asn_name := "LLC"; asn_domain := "";
                 asn_type := "isp" |};
     r_company := {| co_name := "LLC"; co_domain := ""; co_type := "isp" |};
     r_privacy := _privacy_guess "isp";
     r_source := ["ipinfo.io"]; r_confidence := None; r_age_ms := None |}.

(** An answer of ipinfo.io as it comes, with four decimals, and what
    [p_ipinfo] makes of it. *)
Definition ipinfo_body : pyval :=
  PDict [("ip", PStr "8.8.8.8");
         ("loc", PStr "37.4056,-122.0775");
         ("org", PStr "AS15169 Google LLC");
         ("country", PStr "US")].

Definition ipinfo_record : record :=
  {| r_ip := PStr "8.8.8.8"; r_city := PNone; r_region := PNone;
     r_region_code := PNone; r_country := PNone; r_country_code := PStr "US";
     r_continent := PNone; r_continent_code := PNone;
     r_loc := PStr "37.4056,-122.0775";
     r_postal := PNone; r_timezone := PNone;
     r_asn := {| asn_asn := "AS15169"; asn_name := "Google LLC";
                 asn_domain := ""; asn_type := "isp" |};
     r_company := {| co_name := "Google LLC"; co_domain := ""; co_type := "hosting" |};
     r_privacy := _privacy_guess "hosting";
     r_source := ["ipinfo.io"]; r_confidence := None; r_age_ms := None |}.

(** What [p_ipapi] makes of [google_body]. *)
Definition google_record : record :=
  {| r_ip := PStr "8.8.8.8"; r_city := PNone; r_region := PNone;
     r_region_code := PNone; r_country := PNone; r_country_code := PStr "US";
     r_continent := PNone; r_continent_code := PNone;
     r_loc := PStr "37.500000,-122.300000"; r_postal := PNone;
     r_timezone := PStr "America/Los_Angeles";
     r_asn := {| asn_asn := "AS15169"; asn_name := "Google LLC";
                 asn_domain := ""; asn_type := "isp" |};
     r_company := {| co_name := "Google LLC"; co_domain := ""; co_type := "hosting" |};
     r_privacy := _privacy_guess "hosting";
     r_source := ["ipapi.co"]; r_confidence := None; r_age_ms := None |}.

(** What BigDataCloud answers for a Google address, asked about
    8.8.8.8 and naming another address in its body, and what
    [p_bigdatacloud] makes of it. *)
Definition bdc_body : pyval :=
  PDict [("ip", PStr "1.2.3.4");
         ("location",
          PDict [("latitude", PFloat (float_of_dec 375 (-1)));
                 ("longitude", PFloat (float_of_dec (-1223) (-1)));
                 ("city", PStr "Mountain View");
                 ("timeZone", PDict [("ianaTimeId", PStr "America/Los_Angeles")])]);
         ("country", PDict [("isoAlpha2", PStr "US"); ("name", PStr "United States")]);
         ("network",
          PDict [("carriers",
                  PList [PDict [("asn", PStr "AS15169");
                                ("organisation", PStr "GOOGLE")]])])].

Definition bdc_record : record :=
  {| r_ip := PStr "8.8.8.8"; r_city := PStr "Mountain View"; r_region := PNone;
     r_region_code := PNone; r_country := PStr "United States";
     r_country_code := PStr "US"; r_continent := PNone; r_continent_code := PNone;
     r_loc := PStr "37.500000,-122.300000"; r_postal := PNone;
     r_timezone := PStr "America/Los_Angeles";
     r_asn := {| asn_asn := "AS15169"; asn_name := "GOOGLE"; asn_domain := "";
                 asn_type := "isp" |};
     r_company := {| co_name := "GOOGLE"; co_domain := ""; co_type := "hosting" |};
     r_privacy := _privacy_guess "hosting";
     r_source := ["bigdatacloud"]; r_confidence := None; r_age_ms := None |}.

(** A Redis that holds nothing and refuses every SETEX, and a cache
    that was set up with it. *)
Definition redis_refusing : Redis :=
  {| redis_get := fun _ => RedisGetNil;
     redis_setex_fails := fun _ _ _ => true;
     redis_written := [] |}.

Definition redis_cache : Cache := {| _mem := ∅; _redis := Some redis_refusing |}.

(** [runtime_of], with the cache read at [t]. *)
Definition runtime_of_at (c : AsyncClient) (delay : Z) (t : spec_float) : Runtime :=
  {| rt_float_of_str := float_of_str_unreached;
     rt_repr := repr_unreached;
     ip_address := fun _ => ret tt;
     environ := ∅;
     CACHE_TTL_SEC_DEFAULT := 1800;
     client := c;
     latency := fun _ => Some delay;
     loop_time := 0;
     time_at_get := t;
     time_at_set := seconds 1002;
     done_order := fun l => l |}.

(** A cache on a Redis that holds the JSON value [v] under every key and
    takes every SETEX; one on a Redis whose every GET fails. *)
Definition redis_holding (v : pyval) : Cache :=
  {| _mem := ∅;
     _redis := Some {| redis_get := fun _ => RedisGetRaw (ret v);
                       redis_setex_fails := fun _ _ _ => false;
                       redis_written := [] |} |}.

Definition redis_down : Cache :=
  {| _mem := ∅;
     _redis := Some {| redis_get := fun _ => RedisGetRaises TransportError;
                       redis_setex_fails := fun _ _ _ => true;
                       redis_written := [] |} |}.

(** [runtime_of], with the default TTL [ttl]. *)
Definition runtime_ttl (c : AsyncClient) (ttl : Z) : Runtime :=
  {| rt_float_of_str := float_of_str_unreached;
     rt_repr := repr_unreached;
     ip_address := fun _ => ret tt;
     environ := ∅;
     CACHE_TTL_SEC_DEFAULT := ttl;
     client := c;
     latency := fun _ => Some 50;
     loop_time := 0;
     time_at_get := seconds 1001;
     time_at_set := seconds 1002;
     done_order := fun l => l |}.

(** An answer with an address and nothing else: the record made of it
    is no hosting record. *)
Definition address_only_body : pyval := PDict [("ip", PStr "8.8.8.8")].

(** A run in which [ipaddress.ip_address] accepts 8.8.8.8 only. *)
Definition runtime_strict : Runtime :=
  {| rt_float_of_str := float_of_str_unreached;
     rt_repr := repr_unreached;
     ip_address := fun s => if String.eqb s "8.8.8.8" then ret tt else raise ValueError;
     environ := ∅;
     CACHE_TTL_SEC_DEFAULT := 1800;
     client := client_of google_body;
     latency := fun _ => Some 50;
     loop_time := 0;
     time_at_get := seconds 1001;
     time_at_set := seconds 1002;
     done_order := fun l => l |}.

(* ===================================================================== *)
(** * Properties *)
(* ===================================================================== *)

(** ** Sorting *)

Section Sorting.
Context {A : Type} (key : A -> Z).

Lemma insert_desc_perm (x : A) (l : list A) : insert_desc key x l ≡ₚ x :: l.
Proof.
  induction l as [|y l IH]; simpl; [done|].
  destruct (key x <? key y); [|done].
  rewrite IH. apply Permutation_swap.
Qed.

Lemma sort_desc_perm (l : list A) : sort_desc key l ≡ₚ l.
Proof.
  induction l as [|x l IH]; simpl; [done|].
  rewrite insert_desc_perm. by f_equiv.
Qed.

Lemma sort_desc_nonempty (l : list A) : l ≠ [] → sort_desc key l ≠ [].
Proof.
  intros Hl Hs. apply Hl, Permutation_nil_r.
  rewrite <- Hs. symmetry. apply sort_desc_perm.
Qed.

(** The head of the ranking is the first element of largest key. *)
Lemma sort_desc_head (l : list A) (b : A) (rest : list A) :
  sort_desc key l = b :: rest →
  ∃ l1 l2, l = l1 ++ b :: l2
           ∧ (∀ c, c ∈ l1 → key c < key b)
           ∧ (∀ c, c ∈ l2 → key c <= key b).
Proof.
  revert b rest. induction l as [|x l IH]; intros b rest; simpl; [done|].
  destruct (sort_desc key l) as [|b' rest'] eqn:Hs.
  - assert (l = []) as ->.
    { destruct l; [done|]. by destruct (sort_desc_nonempty (a :: l)). }
    simpl. intros [= <- <-]. exists [], []. split; [done|].
    split; intros c Hc; by apply elem_of_nil in Hc.
  - destruct (IH b' rest' eq_refl) as (l1 & l2 & -> & Hlt & Hle).
    simpl. destruct (key x <? key b') eqn:Hcmp.
    + intros [= <- <-]. apply Z.ltb_lt in Hcmp.
      exists (x :: l1), l2. split; [done|]. split; [|done].
      intros c [->|Hc]%elem_of_cons; auto.
    + intros [= <- <-]. apply Z.ltb_ge in Hcmp.
      exists [], (l1 ++ b' :: l2). split; [done|].
      split; [intros c Hc; by apply elem_of_nil in Hc|].
      intros c [Hc|[->|Hc]%elem_of_cons]%elem_of_app.
      * specialize (Hlt c Hc). lia.
      * done.
      * specialize (Hle c Hc). lia.
Qed.

Lemma insert_desc_sorted (x : A) (l : list A) :
  StronglySorted (fun a b => key b <= key a) l →
  StronglySorted (fun a b => key b <= key a) (insert_desc key x l).
Proof.
  induction 1 as [|y l Hs IH Hall]; simpl.
  - repeat constructor.
  - destruct (key x <? key y) eqn:Hcmp.
    + apply Z.ltb_lt in Hcmp. constructor; [done|].
      rewrite insert_desc_perm. constructor; [lia|done].
    + apply Z.ltb_ge in Hcmp. constructor; [by constructor|].
      constructor; [done|].
      eapply Forall_impl; [exact Hall|]. simpl. intros; lia.
Qed.

(** The ranking is in descending order of key ... *)
Lemma sort_desc_sorted (l : list A) :
  StronglySorted (fun a b => key b <= key a) (sort_desc key l).
Proof.
  induction l as [|x l IH]; simpl; [constructor|].
  by apply insert_desc_sorted.
Qed.

Lemma insert_desc_filter (k : Z) (x : A) (l : list A) :
  filter (fun c => key c = k) (insert_desc key x l)
  = filter (fun c => key c = k) (x :: l).
Proof.
  induction l as [|y l IH]; simpl; [done|].
  destruct (key x <? key y) eqn:Hcmp; [|done].
  apply Z.ltb_lt in Hcmp.
  rewrite (filter_cons _ y), IH, !filter_cons.
  repeat case_decide; try done; lia.
Qed.

(** ... and stable: the elements of any one key keep their order. *)
Lemma sort_desc_stable (k : Z) (l : list A) :
  filter (fun c => key c = k) (sort_desc key l) = filter (fun c => key c = k) l.
Proof.
  induction l as [|x l IH]; simpl; [done|].
  rewrite insert_desc_filter, !filter_cons, IH. done.
Qed.

End Sorting.

(** ** [dict.fromkeys] *)

Lemma fromkeys_from_elem (seen l : list string) (x : string) :
  x ∈ fromkeys_from seen l ↔ x ∈ l ∧ x ∉ seen.
Proof.
  revert seen. induction l as [|k r IH]; intros seen; simpl.
  - split; [by intros ?%elem_of_nil | by intros [?%elem_of_nil _]].
  - case_bool_decide as Hk.
    + rewrite IH, elem_of_cons. naive_solver.
    + rewrite !elem_of_cons, IH, elem_of_cons. split; [naive_solver|].
      intros [[->|Hx] Hs]; [by left|].
      destruct (decide (x = k)); [by left | right; naive_solver].
Qed.

Lemma fromkeys_from_NoDup (seen l : list string) : NoDup (fromkeys_from seen l).
Proof.
  revert seen. induction l as [|k r IH]; intros seen; simpl; [constructor|].
  case_bool_decide; [done|]. constructor; [|done].
  rewrite fromkeys_from_elem, elem_of_cons. naive_solver.
Qed.

(** Order of first insertion: what stands before [x] in the result is what
    was seen before the first [x] of the input. *)
Lemma fromkeys_from_first_seen (seen l pre post : list string) (x : string) :
  fromkeys_from seen l = pre ++ x :: post →
  ∃ l1 l2, l = l1 ++ x :: l2 ∧ (x ∉ l1) ∧ (x ∉ seen)
           ∧ (∀ y, y ∈ pre ↔ (y ∈ l1 ∧ (y ∉ seen))).
Proof.
  revert seen pre. induction l as [|k r IH]; intros seen pre; simpl.
  - by destruct pre.
  - case_bool_decide as Hk.
    + intros (l1 & l2 & -> & Hx & Hs & Hpre)%IH.
      exists (k :: l1), l2. split; [done|].
      split; [rewrite elem_of_cons; naive_solver|]. split; [done|].
      intros y. rewrite Hpre, elem_of_cons. naive_solver.
    + destruct pre as [|p pre]; simpl.
      * intros [= <- _]. exists [], r. split; [done|].
        split; [by intros ?%elem_of_nil|]. split; [done|].
        intros y. split; [by intros ?%elem_of_nil | by intros [?%elem_of_nil _]].
      * intros [= <- (l1 & l2 & -> & Hx & Hs & Hpre)%IH].
        rewrite elem_of_cons in Hs.
        exists (k :: l1), l2. split; [done|].
        split; [rewrite elem_of_cons; naive_solver|]. split; [naive_solver|].
        intros y. rewrite !elem_of_cons, Hpre, elem_of_cons. split; [naive_solver|].
        intros [[->|Hy] Hys]; [by left|].
        destruct (decide (y = k)); [by left | right; naive_solver].
Qed.

Lemma fromkeys_first_seen (l pre post : list string) (x : string) :
  fromkeys l = pre ++ x :: post →
  ∃ l1 l2, l = l1 ++ x :: l2 ∧ (x ∉ l1) ∧ (∀ y, y ∈ pre ↔ y ∈ l1).
Proof.
  intros (l1 & l2 & -> & Hx & _ & Hpre)%fromkeys_from_first_seen.
  exists l1, l2. split; [done|]. split; [done|].
  intros y. rewrite Hpre. split; [naive_solver|].
  intros Hy. split; [done | by intros ?%elem_of_nil].
Qed.

(** ** Merge *)

Lemma merge_first_good_ranked (results : list record) :
  results ≠ [] →
  ∃ best rest, sort_desc score results = best :: rest
               ∧ _merge_first_good results = Some (merged_of best (best :: rest)).
Proof.
  intros Hne. destruct results as [|r0 rs]; [done|].
  destruct (sort_desc score (r0 :: rs)) as [|best rest] eqn:Hs.
  { by destruct (sort_desc_nonempty score (r0 :: rs)). }
  exists best, rest. split; [done|].
  unfold _merge_first_good. rewrite Hs. reflexivity.
Qed.

Lemma merge_first_good_empty : _merge_first_good [] = None.
Proof. reflexivity. Qed.

Lemma merged_of_same_body (best : record) (ranked : list record) :
  same_body (merged_of best ranked) best.
Proof. repeat split. Qed.

Lemma NoDup_two_distinct (l : list string) :
  NoDup l → (two_distinct l ↔ (2 <= length l)%nat).
Proof.
  intros Hnd. split.
  - intros (a & b & Hab & Ha & Hb).
    destruct l as [|x [|y l]]; simpl; [by apply elem_of_nil in Ha| |lia].
    apply list_elem_of_singleton in Ha, Hb. congruence.
  - destruct l as [|x [|y l]]; simpl; [lia|lia|]. intros _.
    exists x, y. split.
    + intros ->. apply NoDup_cons in Hnd as [Hx _]. apply Hx. by left.
    + split; [by left | right; by left].
Qed.

Lemma conf_values :
  conf_high = S754_finite false 8106479329266893 (-53)
  ∧ conf_loc = S754_finite false 6305039478318694 (-53)
  ∧ conf_low = S754_finite false 5404319552844595 (-53).
Proof. by vm_compute. Qed.

Lemma source_of_merged (best : record) (ranked : list record) :
  r_source (merged_of best ranked) = fromkeys (concat (map r_source ranked)).
Proof. reflexivity. Qed.

Lemma elem_of_concat_sources (ranked : list record) (s : string) :
  s ∈ concat (map r_source ranked) ↔ ∃ c, c ∈ ranked ∧ s ∈ r_source c.
Proof.
  induction ranked as [|c cs IH]; simpl.
  - split; [by intros ?%elem_of_nil | by intros (? & ?%elem_of_nil & _)].
  - rewrite elem_of_app, IH. split.
    + intros [H|(c' & Hc' & Hs)]; [exists c | exists c']; split; auto; by constructor.
    + intros (c' & [->|Hc']%elem_of_cons & Hs); [by left | right; eauto].
Qed.

(** C1. For a non-empty list of candidates the merge scores each one +3
    for a loc, +1 for a timezone, +1 for a country or country_code and +1
    for a non-empty asn.asn, a field counting as present when its value is
    truthy, which is how the code tests it; the base of the result is a
    candidate of maximal score, and among those the first of the input:
    everything before it scores strictly less, nothing after it scores
    more. *)
Theorem merge_picks_first_best (results : list record) :
  results ≠ [] →
  ∃ before best after merged,
    results = before ++ best :: after
    ∧ (∀ c, c ∈ before → score c < score best)
    ∧ (∀ c, c ∈ after → score c <= score best)
    ∧ _merge_first_good results = Some merged
    ∧ same_body merged best
    ∧ (∀ d, score d =
            (if truthy (r_loc d) then 3 else 0)
            + (if truthy (r_timezone d) then 1 else 0)
            + (if truthy (r_country d) || truthy (r_country_code d) then 1 else 0)
            + (if negb (String.eqb (asn_asn (r_asn d)) "") then 1 else 0)).
Proof.
  intros (best & rest & Hs & Hm)%merge_first_good_ranked.
  destruct (sort_desc_head score results best rest Hs) as (l1 & l2 & -> & Hlt & Hle).
  exists l1, best, l2, (merged_of best (best :: rest)).
  repeat split; try done.
  intros d. unfold score.
  destruct (truthy (r_loc d)), (truthy (r_timezone d)),
    (truthy (r_country d) || truthy (r_country_code d)),
    (negb (String.eqb (asn_asn (r_asn d)) "")); reflexivity.
Qed.

Lemma merge_picks_first_best_example :
  [located_record "8.8.8.8" ["a"]; full_record "8.8.8.8" ["b"];
   full_record "8.8.8.8" ["c"]] ≠ []
  ∧ ∃ before best after merged,
      [located_record "8.8.8.8" ["a"]; full_record "8.8.8.8" ["b"];
       full_record "8.8.8.8" ["c"]] = before ++ best :: after
      ∧ (∀ c, c ∈ before → score c < score best)
      ∧ (∀ c, c ∈ after → score c <= score best)
      ∧ _merge_first_good
          [located_record "8.8.8.8" ["a"]; full_record "8.8.8.8" ["b"];
           full_record "8.8.8.8" ["c"]] = Some merged
      ∧ same_body merged best
      ∧ (∀ d, score d =
              (if truthy (r_loc d) then 3 else 0)
              + (if truthy (r_timezone d) then 1 else 0)
              + (if truthy (r_country d) || truthy (r_country_code d) then 1 else 0)
              + (if negb (String.eqb (asn_asn (r_asn d)) "") then 1 else 0)).
Proof.
  split; [discriminate|].
  apply (merge_picks_first_best
           [located_record "8.8.8.8" ["a"]; full_record "8.8.8.8" ["b"];
            full_record "8.8.8.8" ["c"]]).
  discriminate.
Defined.

(** The scores of the spec's example, and who wins it. *)
Example score_full_and_located :
  score (full_record "8.8.8.8" ["b"]) = 6
  ∧ score (located_record "8.8.8.8" ["a"]) = 3
  ∧ r_source <$> _merge_first_good
      [located_record "8.8.8.8" ["a"]; full_record "8.8.8.8" ["b"];
       full_record "8.8.8.8" ["c"]] = Some ["b"; "c"; "a"]
  ∧ r_timezone <$> _merge_first_good
      [located_record "8.8.8.8" ["a"]; full_record "8.8.8.8" ["b"];
       full_record "8.8.8.8" ["c"]] = Some (PStr "America/Los_Angeles").
Proof. by vm_compute. Qed.

(** C3. The confidence of a merged result is 0.9 when its source list
    holds two distinct entries and the winning record, the head of the
    ranking, has a loc (a truthy one, as the code tests it), 0.7 when it
    has a loc but not two sources, 0.6 when it has no loc; these are the
    only values. The source list has no duplicate, and the loc of the
    result is the winner's. *)
Theorem merge_confidence (results : list record) :
  results ≠ [] →
  ∃ best rest merged,
    _merge_first_good results = Some merged
    ∧ sort_desc score results = best :: rest
    ∧ r_loc merged = r_loc best
    ∧ NoDup (r_source merged)
    ∧ (two_distinct (r_source merged) ∧ truthy (r_loc best) = true →
       r_confidence merged = Some conf_high)
    ∧ (¬ two_distinct (r_source merged) ∧ truthy (r_loc best) = true →
       r_confidence merged = Some conf_loc)
    ∧ (truthy (r_loc best) = false → r_confidence merged = Some conf_low)
    ∧ (r_confidence merged = Some conf_high
       ∨ r_confidence merged = Some conf_loc
       ∨ r_confidence merged = Some conf_low)
    ∧ conf_high = float_of_dec 9 (-1)
    ∧ conf_loc = float_of_dec 7 (-1)
    ∧ conf_low = float_of_dec 6 (-1).
Proof.
  intros (best & rest & Hs & Hm)%merge_first_good_ranked.
  exists best, rest, (merged_of best (best :: rest)).
  assert (NoDup (r_source (merged_of best (best :: rest)))) as Hnd
    by apply fromkeys_from_NoDup.
  pose proof (NoDup_two_distinct _ Hnd) as Htwo.
  split; [done|]. split; [done|]. split; [done|]. split; [done|].
  assert (r_confidence (merged_of best (best :: rest)) =
          Some (if (2 <=? Z.of_nat (length (r_source (merged_of best (best :: rest)))))
                   && truthy (r_loc best)
                then conf_high
                else if truthy (r_loc best) then conf_loc else conf_low)) as ->
    by reflexivity.
  destruct (truthy (r_loc best)); rewrite ?andb_true_r, ?andb_false_r.
  - destruct (2 <=? _) eqn:Hlen.
    + apply Z.leb_le in Hlen. split_and!; auto; [|done].
      intros [Hno _]. destruct Hno. apply Htwo. lia.
    + apply Z.leb_gt in Hlen. split_and!; auto; [|done].
      intros [Hyes%Htwo _]. lia.
  - split_and!; auto; by intros [_ ?].
Qed.

Lemma merge_confidence_example :
  [located_record "8.8.8.8" ["a"]; bare_record "8.8.8.8" ["b"; "a"]] ≠ []
  ∧ ∃ best rest merged,
      _merge_first_good
        [located_record "8.8.8.8" ["a"]; bare_record "8.8.8.8" ["b"; "a"]]
      = Some merged
      ∧ sort_desc score
          [located_record "8.8.8.8" ["a"]; bare_record "8.8.8.8" ["b"; "a"]]
        = best :: rest
      ∧ r_loc merged = r_loc best
      ∧ NoDup (r_source merged)
      ∧ (two_distinct (r_source merged) ∧ truthy (r_loc best) = true →
         r_confidence merged = Some conf_high)
      ∧ (¬ two_distinct (r_source merged) ∧ truthy (r_loc best) = true →
         r_confidence merged = Some conf_loc)
      ∧ (truthy (r_loc best) = false → r_confidence merged = Some conf_low)
      ∧ (r_confidence merged = Some conf_high
         ∨ r_confidence merged = Some conf_loc
         ∨ r_confidence merged = Some conf_low)
      ∧ conf_high = float_of_dec 9 (-1)
      ∧ conf_loc = float_of_dec 7 (-1)
      ∧ conf_low = float_of_dec 6 (-1).
Proof.
  split; [discriminate|].
  apply (merge_confidence
           [located_record "8.8.8.8" ["a"]; bare_record "8.8.8.8" ["b"; "a"]]).
  discriminate.
Defined.

(** The three cases of the spec, run. *)
Example confidence_cases :
  r_confidence <$> _merge_first_good
    [located_record "8.8.8.8" ["a"]; bare_record "8.8.8.8" ["b"; "a"]]
  = Some (Some conf_high)
  ∧ r_confidence <$> _merge_first_good [located_record "8.8.8.8" ["a"]]
    = Some (Some conf_loc)
  ∧ r_confidence <$> _merge_first_good
      [bare_record "8.8.8.8" ["a"]; bare_record "8.8.8.8" ["b"]]
    = Some (Some conf_low).
Proof. by vm_compute. Qed.

(** C4. The source of the merged result is the union of the candidates'
    source lists without duplicates, in order of first appearance along
    the ranked candidates (the winner's sources first); every other key
    of the result, "confidence" and "age_ms" apart, holds what the winner
    holds. *)
Theorem merge_source_union (results : list record) :
  results ≠ [] →
  ∃ best rest merged,
    _merge_first_good results = Some merged
    ∧ best :: rest ≡ₚ results
    ∧ sort_desc score results = best :: rest
    ∧ same_body merged best
    ∧ NoDup (r_source merged)
    ∧ (∀ s, s ∈ r_source merged ↔ ∃ c, c ∈ results ∧ s ∈ r_source c)
    ∧ (∀ pre s post, r_source merged = pre ++ s :: post →
         ∃ l1 l2, concat (map r_source (best :: rest)) = l1 ++ s :: l2
                  ∧ (s ∉ l1) ∧ (∀ y, y ∈ pre ↔ y ∈ l1)).
Proof.
  intros (best & rest & Hs & Hm)%merge_first_good_ranked.
  exists best, rest, (merged_of best (best :: rest)).
  split; [done|]. split; [rewrite <- Hs; apply sort_desc_perm|].
  split; [done|]. split; [apply merged_of_same_body|].
  split; [apply fromkeys_from_NoDup|]. split.
  - intros s. rewrite source_of_merged. unfold fromkeys.
    rewrite fromkeys_from_elem, elem_of_concat_sources.
    assert (∀ c, c ∈ best :: rest ↔ c ∈ results) as Hperm.
    { intros c. by rewrite <- Hs, (sort_desc_perm score results). }
    split.
    + intros [(c & Hc & Hsc) _]. exists c. by rewrite <- Hperm.
    + intros (c & Hc & Hsc). split; [|by intros ?%elem_of_nil].
      exists c. by rewrite Hperm.
  - intros pre s post. rewrite source_of_merged. apply fromkeys_first_seen.
Qed.

Lemma merge_source_union_example :
  [bare_record "8.8.8.8" ["a"]; located_record "8.8.8.8" ["b"; "a"]] ≠ []
  ∧ ∃ best rest merged,
      _merge_first_good
        [bare_record "8.8.8.8" ["a"]; located_record "8.8.8.8" ["b"; "a"]]
      = Some merged
      ∧ best :: rest
        ≡ₚ [bare_record "8.8.8.8" ["a"]; located_record "8.8.8.8" ["b"; "a"]]
      ∧ sort_desc score
          [bare_record "8.8.8.8" ["a"]; located_record "8.8.8.8" ["b"; "a"]]
        = best :: rest
      ∧ same_body merged best
      ∧ NoDup (r_source merged)
      ∧ (∀ s, s ∈ r_source merged ↔
              ∃ c, c ∈ [bare_record "8.8.8.8" ["a"];
                        located_record "8.8.8.8" ["b"; "a"]]
                   ∧ s ∈ r_source c)
      ∧ (∀ pre s post, r_source merged = pre ++ s :: post →
           ∃ l1 l2, concat (map r_source (best :: rest)) = l1 ++ s :: l2
                    ∧ (s ∉ l1) ∧ (∀ y, y ∈ pre ↔ y ∈ l1)).
Proof.
  split; [discriminate|].
  apply (merge_source_union
           [bare_record "8.8.8.8" ["a"]; located_record "8.8.8.8" ["b"; "a"]]).
  discriminate.
Defined.

(** The spec's example: sources ["a"] and ["b"; "a"] merge to ["b"; "a"]
    when the second candidate wins and to ["a"; "b"] when the first does. *)
Example merge_dedup_cases :
  r_source <$> _merge_first_good
    [bare_record "8.8.8.8" ["a"]; located_record "8.8.8.8" ["b"; "a"]]
  = Some ["b"; "a"]
  ∧ r_source <$> _merge_first_good
      [located_record "8.8.8.8" ["a"]; bare_record "8.8.8.8" ["b"; "a"]]
    = Some ["a"; "b"].
Proof. by vm_compute. Qed.

(** ** Cache *)

Lemma Cache_get_mem (self : Cache) (now : spec_float) (key : string) :
  _redis self = None →
  Cache_get self now key =
    match _mem self !! key with
    | None => (ret None, self)
    | Some (exp, val) =>
        if float_lt exp now
        then (ret None, {| _mem := delete key (_mem self); _redis := _redis self |})
        else (ret (Some (Rec val)), self)
    end.
Proof. intros H. unfold Cache_get. by rewrite H. Qed.

(** With the in-process backend [set] succeeds exactly when the TTL
    converts to a float, and then stores the record with its expiry. *)
Lemma Cache_set_mem_succeeds (self : Cache) (t0 tf : spec_float)
    (key : string) (val : record) (ttl : Z) :
  _redis self = None →
  float_of_int ttl = inr tf →
  Cache_set self t0 key val ttl
  = (ret tt, {| _mem := <[key := (float_add t0 tf, val)]> (_mem self);
                _redis := None |}).
Proof.
  intros Hmem Htf. unfold Cache_set, Cache_set_mem. by rewrite Hmem, Htf.
Qed.

(** Every integer of at most 53 bits converts to a float: no rounding,
    no overflow. *)
Lemma digits2_pos_le (p : positive) (k : Z) :
  Z.pos p < 2 ^ k → Z.pos (digits2_pos p) <= k.
Proof.
  assert (∀ k, k <= 0 → 2 ^ k <= 1) as Hlow.
  { intros j Hj. change 1 with (2 ^ 0). apply Z.pow_le_mono_r; lia. }
  revert k. induction p as [p IH|p IH|]; intros k Hk; simpl digits2_pos.
  - destruct (Z.le_gt_cases k 0) as [Hle|Hgt]; [specialize (Hlow k Hle); lia|].
    rewrite Pos2Z.inj_succ. specialize (IH (k - 1)).
    replace k with (Z.succ (k - 1)) in Hk by lia.
    rewrite Z.pow_succ_r in Hk by lia. lia.
  - destruct (Z.le_gt_cases k 0) as [Hle|Hgt]; [specialize (Hlow k Hle); lia|].
    rewrite Pos2Z.inj_succ. specialize (IH (k - 1)).
    replace k with (Z.succ (k - 1)) in Hk by lia.
    rewrite Z.pow_succ_r in Hk by lia. lia.
  - destruct (Z.le_gt_cases k 0) as [Hle|Hgt]; [specialize (Hlow k Hle); lia|lia].
Qed.

Lemma digits2_pos_iter_xO (m d : positive) :
  Z.pos (digits2_pos (Pos.iter xO m d)) = Z.pos (digits2_pos m) + Z.pos d.
Proof.
  induction d as [|d IH] using Pos.peano_ind.
  - simpl. lia.
  - rewrite Pos.iter_succ. simpl digits2_pos. lia.
Qed.

Lemma binary_round_aux_exact (s : bool) (mz : positive) (ez : Z) :
  Z.pos (digits2_pos mz) = 53 → -1074 <= ez <= 971 →
  binary_round_aux prec emax s (Z.pos mz) ez loc_Exact = S754_finite s mz ez.
Proof.
  intros Hd He. unfold binary_round_aux, shr_fexp.
  assert (fexp prec emax (Zdigits2 (Z.pos mz) + ez) - ez = 0) as ->.
  { unfold Zdigits2, fexp, emin, prec, emax. rewrite Hd. lia. }
  cbn [shr shr_record_of_loc shr_m loc_of_shr_record round_nearest_even].
  assert (fexp prec emax (Zdigits2 (Z.pos mz) + ez) - ez = 0) as ->.
  { unfold Zdigits2, fexp, emin, prec, emax. rewrite Hd. lia. }
  cbn [shr shr_record_of_loc shr_m].
  assert ((ez <=? emax - prec) = true) as ->; [|done].
  unfold emax, prec. lia.
Qed.

Lemma binary_round_small (s : bool) (m : positive) :
  Z.pos m < 2 ^ 53 → ∃ mz ez, binary_round prec emax s m 0 = S754_finite s mz ez.
Proof.
  intros Hm. unfold binary_round.
  pose proof (digits2_pos_le m 53 Hm) as Hd.
  assert (fexp prec emax (Z.pos (digits2_pos m) + 0) = Z.pos (digits2_pos m) - 53) as ->.
  { unfold fexp, emin, prec, emax. lia. }
  unfold shl_align. rewrite Z.sub_0_r.
  destruct (Z.pos (digits2_pos m) - 53) as [|p|p] eqn:Hp; [|lia|].
  - exists m, 0. apply binary_round_aux_exact; lia.
  - eexists _, _. apply binary_round_aux_exact; [|lia].
    rewrite digits2_pos_iter_xO. lia.
Qed.

Lemma float_of_int_small (ttl : Z) :
  Z.abs ttl < 2 ^ 53 → ∃ tf, float_of_int ttl = inr tf.
Proof.
  intros Hsmall. unfold float_of_int, binary_normalize.
  destruct ttl as [|m|m]; [by eexists | |].
  - destruct (binary_round_small false m) as (mz & ez & ->); [lia|]. by eexists.
  - destruct (binary_round_small true m) as (mz & ez & ->); [lia|]. by eexists.
Qed.

Lemma Cache_set_mem_stored (self stored : Cache) (t0 : spec_float)
    (key : string) (val : record) (ttl : Z) :
  Cache_set_mem self t0 key val ttl = (ret tt, stored) →
  ∃ tf, float_of_int ttl = inr tf
        ∧ stored = {| _mem := <[key := (float_add t0 tf, val)]> (_mem self);
                      _redis := _redis self |}.
Proof.
  unfold Cache_set_mem. destruct (float_of_int ttl) as [e|tf]; [done|].
  intros [= <-]. by exists tf.
Qed.

(** C7. With the in-process backend: an entry whose stored expiry lies
    before the time of the read is not returned, [get] answers absent and
    drops it from the mapping; whatever [get] returns is a stored entry
    that has not expired; a [set] whose TTL converts to a float, as every
    TTL below 2^53 in absolute value does, succeeds and stores the record
    with its expiry, and no [set] succeeds otherwise; and the record
    stored is returned by a [get] made no later than its expiry. *)
Theorem cache_get_never_expired (self : Cache) (now : spec_float) (key : string) :
  _redis self = None →
  (∀ exp val, _mem self !! key = Some (exp, val) → float_lt exp now = true →
     ∃ self', Cache_get self now key = (ret None, self')
              ∧ _mem self' = delete key (_mem self)
              ∧ _mem self' !! key = None
              ∧ _redis self' = None)
  ∧ (∀ got self', Cache_get self now key = (ret (Some got), self') →
       ∃ exp val, got = Rec val
                  ∧ _mem self !! key = Some (exp, val)
                  ∧ float_lt exp now = false ∧ self' = self)
  ∧ (∀ val ttl t0 stored, Cache_set self t0 key val ttl = (ret tt, stored) →
       ∃ tf, float_of_int ttl = inr tf
             ∧ _mem stored !! key = Some (float_add t0 tf, val)
             ∧ (float_lt (float_add t0 tf) now = false →
                Cache_get stored now key = (ret (Some (Rec val)), stored)))
  ∧ (∀ val ttl t0 tf, float_of_int ttl = inr tf →
       ∃ stored, Cache_set self t0 key val ttl = (ret tt, stored)
                 ∧ _redis stored = None
                 ∧ _mem stored = <[key := (float_add t0 tf, val)]> (_mem self)
                 ∧ (float_lt (float_add t0 tf) now = false →
                    Cache_get stored now key = (ret (Some (Rec val)), stored)))
  ∧ (∀ ttl, Z.abs ttl < 2 ^ 53 → ∃ tf, float_of_int ttl = inr tf).
Proof.
  intros Hmem. split_and!.
  - intros exp val Hk Hexp. rewrite Cache_get_mem, Hk, Hexp by done.
    eexists. split; [done|]. simpl. split; [done|].
    split; [apply lookup_delete_eq | done].
  - intros got self'. rewrite Cache_get_mem by done.
    destruct (_mem self !! key) as [[exp v]|] eqn:Hk; [|done].
    destruct (float_lt exp now) eqn:Hexp; [done|].
    intros [= <- <-]. by exists exp, v.
  - intros val ttl t0 stored. unfold Cache_set. rewrite Hmem.
    intros (tf & Htf & ->)%Cache_set_mem_stored.
    exists tf. split; [done|]. simpl. split; [apply lookup_insert_eq|].
    intros Hlive. rewrite Cache_get_mem by done. simpl.
    by rewrite lookup_insert_eq, Hlive.
  - intros val ttl t0 tf Htf. eexists.
    split; [by apply Cache_set_mem_succeeds|]. cbn [_redis _mem].
    split; [done|]. split; [done|].
    intros Hlive. rewrite Cache_get_mem by done. cbn [_redis _mem].
    by rewrite lookup_insert_eq, Hlive.
  - apply float_of_int_small.
Qed.

(** The cache whose one entry expired at second 1000, read at second
    1001; a write at second 1000 for one second succeeds and is read back
    at second 1001. *)
Lemma cache_get_never_expired_example :
  _redis stale_cache = None
  ∧ float_of_int 1 = inr (seconds 1)
  ∧ ((∀ exp val, _mem stale_cache !! "ip:8.8.8.8" = Some (exp, val) →
        float_lt exp (seconds 1001) = true →
        ∃ self', Cache_get stale_cache (seconds 1001) "ip:8.8.8.8" = (ret None, self')
                 ∧ _mem self' = delete "ip:8.8.8.8" (_mem stale_cache)
                 ∧ _mem self' !! "ip:8.8.8.8" = None
                 ∧ _redis self' = None)
     ∧ (∀ got self',
          Cache_get stale_cache (seconds 1001) "ip:8.8.8.8" = (ret (Some got), self') →
          ∃ exp val, got = Rec val
                     ∧ _mem stale_cache !! "ip:8.8.8.8" = Some (exp, val)
                     ∧ float_lt exp (seconds 1001) = false ∧ self' = stale_cache)
     ∧ (∀ val ttl t0 stored,
          Cache_set stale_cache t0 "ip:8.8.8.8" val ttl = (ret tt, stored) →
          ∃ tf, float_of_int ttl = inr tf
                ∧ _mem stored !! "ip:8.8.8.8" = Some (float_add t0 tf, val)
                ∧ (float_lt (float_add t0 tf) (seconds 1001) = false →
                   Cache_get stored (seconds 1001) "ip:8.8.8.8"
                   = (ret (Some (Rec val)), stored)))
     ∧ (∀ val ttl t0 tf, float_of_int ttl = inr tf →
          ∃ stored, Cache_set stale_cache t0 "ip:8.8.8.8" val ttl = (ret tt, stored)
                    ∧ _redis stored = None
                    ∧ _mem stored
                      = <["ip:8.8.8.8" := (float_add t0 tf, val)]> (_mem stale_cache)
                    ∧ (float_lt (float_add t0 tf) (seconds 1001) = false →
                       Cache_get stored (seconds 1001) "ip:8.8.8.8"
                       = (ret (Some (Rec val)), stored)))
     ∧ (∀ ttl, Z.abs ttl < 2 ^ 53 → ∃ tf, float_of_int ttl = inr tf))
  ∧ ∃ stored,
      Cache_set stale_cache (seconds 1000) "ip:8.8.8.8" (bare_record "8.8.8.8" ["b"]) 1
      = (ret tt, stored)
      ∧ Cache_get stored (seconds 1001) "ip:8.8.8.8"
        = (ret (Some (Rec (bare_record "8.8.8.8" ["b"]))), stored).
Proof.
  pose proof (cache_get_never_expired stale_cache (seconds 1001) "ip:8.8.8.8" eq_refl)
    as H.
  split; [reflexivity|]. split; [reflexivity|]. split; [exact H|].
  destruct H as (_ & _ & _ & H & _).
  destruct (H (bare_record "8.8.8.8" ["b"]) 1 (seconds 1000) (seconds 1) eq_refl)
    as (stored & Hset & _ & _ & Hget).
  exists stored. split; [exact Hset|]. apply Hget. reflexivity.
Defined.

(** The spec's example: a record stored at second 1000 for one second is
    there at second 1001 and gone, mapping included, at second 1002. *)
Example cache_set_get_ttl :
  let stored := snd (Cache_set empty_cache (seconds 1000) "ip:8.8.8.8"
                       (bare_record "8.8.8.8" ["a"]) 1) in
  fst (Cache_get stored (seconds 1001) "ip:8.8.8.8")
  = ret (Some (Rec (bare_record "8.8.8.8" ["a"])))
  ∧ fst (Cache_get stored (seconds 1002) "ip:8.8.8.8") = ret None
  ∧ _mem (snd (Cache_get stored (seconds 1002) "ip:8.8.8.8")) !! "ip:8.8.8.8" = None.
Proof. by vm_compute. Qed.

(** ** Lookup *)

Lemma lookup_ip_miss (R : Runtime) (cache cache1 : Cache) (ip : string)
    (got : option cache_value) :
  _validate_ip R ip = inr ip →
  Cache_get cache (time_at_get R) ("ip:" +:+ ip) = (ret got, cache1) →
  cached_truthy got = false →
  lookup_ip R cache ip =
    match _merge_first_good (results (hedge R ip)) with
    | Some m =>
        let ttl := if hosting (r_privacy m)
                   then Z.min (CACHE_TTL_SEC_DEFAULT R) 600
                   else CACHE_TTL_SEC_DEFAULT R in
        let '(written, cache2) :=
          Cache_set cache1 (time_at_set R) ("ip:" +:+ ip) m ttl in
        match written with
        | inl e => (raise e, cache2)
        | inr _ => (ret (Some (Rec m)), cache2)
        end
    | None => (ret None, cache1)
    end.
Proof.
  intros Hv Hget Hmiss. unfold lookup_ip. rewrite Hv, Hget. unfold ret at 1.
  rewrite Hmiss. by destruct (_merge_first_good _).
Qed.

(** C6. When a lookup stores its merged result, the TTL it hands to the
    cache write is the default TTL, capped at 600 seconds when the
    record's privacy.hosting flag is set. This is so whenever the cache
    gave nothing to return: no value, or a false one out of Redis. *)
Theorem lookup_hosting_ttl (R : Runtime) (cache cache1 : Cache) (ip : string)
    (got : option cache_value) (merged : record) :
  _validate_ip R ip = inr ip →
  Cache_get cache (time_at_get R) ("ip:" +:+ ip) = (ret got, cache1) →
  cached_truthy got = false →
  _merge_first_good (results (hedge R ip)) = Some merged →
  ∃ ttl,
    lookup_ip R cache ip =
      (let '(written, cache2) :=
         Cache_set cache1 (time_at_set R) ("ip:" +:+ ip) merged ttl in
       match written with
       | inl e => (raise e, cache2)
       | inr _ => (ret (Some (Rec merged)), cache2)
       end)
    ∧ (hosting (r_privacy merged) = true →
       ttl = Z.min (CACHE_TTL_SEC_DEFAULT R) 600 ∧ ttl <= 600)
    ∧ (hosting (r_privacy merged) = false → ttl = CACHE_TTL_SEC_DEFAULT R).
Proof.
  intros Hv Hget Hmiss Hm.
  rewrite (lookup_ip_miss R cache cache1 ip got Hv Hget Hmiss), Hm.
  destruct (hosting (r_privacy merged)) eqn:Hh; simpl.
  - exists (Z.min (CACHE_TTL_SEC_DEFAULT R) 600). split; [done|].
    split; [intros _; split; [done|lia] | done].
  - exists (CACHE_TTL_SEC_DEFAULT R). split; [done|]. split; done.
Qed.

Lemma lookup_hosting_ttl_example :
  _validate_ip (runtime_of (client_of google_body) 50) "8.8.8.8" = inr "8.8.8.8"
  ∧ Cache_get empty_cache (time_at_get (runtime_of (client_of google_body) 50))
      ("ip:" +:+ "8.8.8.8") = (ret None, empty_cache)
  ∧ cached_truthy None = false
  ∧ _merge_first_good (results (hedge (runtime_of (client_of google_body) 50) "8.8.8.8"))
    = Some google_merged
  ∧ ∃ ttl,
      lookup_ip (runtime_of (client_of google_body) 50) empty_cache "8.8.8.8" =
        (let '(written, cache2) :=
           Cache_set empty_cache (time_at_set (runtime_of (client_of google_body) 50))
             ("ip:" +:+ "8.8.8.8") google_merged ttl in
         match written with
         | inl e => (raise e, cache2)
         | inr _ => (ret (Some (Rec google_merged)), cache2)
         end)
      ∧ (hosting (r_privacy google_merged) = true →
         ttl = Z.min (CACHE_TTL_SEC_DEFAULT (runtime_of (client_of google_body) 50)) 600
         ∧ ttl <= 600)
      ∧ (hosting (r_privacy google_merged) = false →
         ttl = CACHE_TTL_SEC_DEFAULT (runtime_of (client_of google_body) 50)).
Proof.
  split; [reflexivity|]. split; [reflexivity|]. split; [reflexivity|].
  split; [by vm_compute|].
  apply (lookup_hosting_ttl (runtime_of (client_of google_body) 50)
           empty_cache empty_cache "8.8.8.8" None google_merged);
    [reflexivity | reflexivity | reflexivity | by vm_compute].
Defined.

(** The hosting record above is stored until second 1002 + 600, although
    the default TTL is 1800. *)
Example hosting_record_expiry :
  fst <$> _mem (snd (lookup_ip (runtime_of (client_of google_body) 50)
                       empty_cache "8.8.8.8")) !! "ip:8.8.8.8"
  = Some (seconds 1602).
Proof. by vm_compute. Qed.

(** C8, as amended. When no adapter result completed, [lookup_ip] returns
    absent and makes no cache write: the cache is left as the initial read
    left it. Nothing is sent to Redis, no other key of the in-memory
    mapping changes, and the mapping itself is unchanged unless it held
    an expired entry for this address, which the read evicted. The cache
    gave nothing to return: no value, or a false one out of Redis. *)
Theorem lookup_no_result_no_write (R : Runtime) (cache : Cache) (ip : string)
    (got : option cache_value) :
  _validate_ip R ip = inr ip →
  fst (Cache_get cache (time_at_get R) ("ip:" +:+ ip)) = ret got →
  cached_truthy got = false →
  results (hedge R ip) = [] →
  ∃ cache',
    lookup_ip R cache ip = (ret None, cache')
    ∧ cache' = snd (Cache_get cache (time_at_get R) ("ip:" +:+ ip))
    ∧ _redis cache' = _redis cache
    ∧ (∀ k, k ≠ "ip:" +:+ ip → _mem cache' !! k = _mem cache !! k)
    ∧ (cache' = cache
       ∨ ∃ exp val, _redis cache = None
                    ∧ _mem cache !! ("ip:" +:+ ip) = Some (exp, val)
                    ∧ float_lt exp (time_at_get R) = true
                    ∧ _mem cache' = delete ("ip:" +:+ ip) (_mem cache)).
Proof.
  intros Hv Hget Hmiss Hres.
  destruct (Cache_get cache (time_at_get R) ("ip:" +:+ ip)) as [got' cache1] eqn:Hg.
  simpl in Hget. subst got'. exists cache1.
  rewrite (lookup_ip_miss R cache cache1 ip got Hv Hg Hmiss), Hres. simpl.
  split; [done|]. split; [done|].
  revert Hg. unfold Cache_get. destruct (_redis cache) as [rd|] eqn:Hrd.
  - destruct (redis_get rd _) as [e| |loaded].
    + done.
    + intros [= _ <-]. split_and!; auto.
    + destruct loaded as [e|v]; simpl; intros [= _ <-]; split_and!; auto.
  - destruct (_mem cache !! _) as [[exp val]|] eqn:Hk.
    + destruct (float_lt exp (time_at_get R)) eqn:Hexp.
      * intros [= _ <-]. simpl. split; [done|].
        split; [intros k Hne; by rewrite lookup_delete_ne|].
        right. by exists exp, val.
      * intros [= <- _]. done.
    + intros [= _ <-]. split_and!; auto.
Qed.

Lemma lookup_no_result_no_write_example :
  _validate_ip (runtime_of client_down 50) "8.8.8.8" = inr "8.8.8.8"
  ∧ fst (Cache_get stale_cache (time_at_get (runtime_of client_down 50))
           ("ip:" +:+ "8.8.8.8")) = ret None
  ∧ cached_truthy None = false
  ∧ results (hedge (runtime_of client_down 50) "8.8.8.8") = []
  ∧ ∃ cache',
      lookup_ip (runtime_of client_down 50) stale_cache "8.8.8.8" = (ret None, cache')
      ∧ cache' = snd (Cache_get stale_cache (time_at_get (runtime_of client_down 50))
                        ("ip:" +:+ "8.8.8.8"))
      ∧ _redis cache' = _redis stale_cache
      ∧ (∀ k, k ≠ "ip:" +:+ "8.8.8.8" → _mem cache' !! k = _mem stale_cache !! k)
      ∧ (cache' = stale_cache
         ∨ ∃ exp val, _redis stale_cache = None
                      ∧ _mem stale_cache !! ("ip:" +:+ "8.8.8.8") = Some (exp, val)
                      ∧ float_lt exp (time_at_get (runtime_of client_down 50)) = true
                      ∧ _mem cache' = delete ("ip:" +:+ "8.8.8.8") (_mem stale_cache)).
Proof.
  split; [reflexivity|]. split; [reflexivity|]. split; [reflexivity|].
  split; [reflexivity|].
  apply (lookup_no_result_no_write (runtime_of client_down 50) stale_cache "8.8.8.8"
           None);
    reflexivity.
Defined.

(** C8 as stated fails: every provider is down, the lookup returns absent,
    and the in-memory mapping, which held an expired entry for the
    address, no longer holds it. *)
Lemma lookup_no_result_changes_cache :
  results (hedge (runtime_of client_down 50) "8.8.8.8") = []
  ∧ fst (lookup_ip (runtime_of client_down 50) stale_cache "8.8.8.8") = ret None
  ∧ _mem stale_cache !! "ip:8.8.8.8"
    = Some (seconds 1000, bare_record "8.8.8.8" ["a"])
  ∧ _mem (snd (lookup_ip (runtime_of client_down 50) stale_cache "8.8.8.8"))
      !! "ip:8.8.8.8" = None
  ∧ snd (lookup_ip (runtime_of client_down 50) stale_cache "8.8.8.8") ≠ stale_cache.
Proof.
  split_and!; by vm_compute.
Qed.

(** ** Hedging *)

(** C10, as amended. The first two providers are started at once, the
    third 200 ms later, and the wait that follows lasts up to 1.6 s from
    the start of the third, that is 1.8 s from the start of the first
    two. The tasks finished by then are the done ones; all others are
    cancelled, and every result comes from a done task. *)
Theorem hedge_schedule (R : Runtime) (ip : string) :
  map t_provider (tasks_primary (hedge R ip)) = [0%nat; 1%nat]
  ∧ map t_launch (tasks_primary (hedge R ip)) = [loop_time R; loop_time R]
  ∧ map t_provider (tasks_secondary (hedge R ip)) = [2%nat]
  ∧ map t_launch (tasks_secondary (hedge R ip)) = [loop_time R + 200]
  ∧ deadline (hedge R ip) = loop_time R + 1800
  ∧ (∀ t, t ∈ done (hedge R ip) ↔
          t ∈ tasks_primary (hedge R ip) ++ tasks_secondary (hedge R ip)
          ∧ ∃ f, t_finish t = Some f ∧ f <= deadline (hedge R ip))
  ∧ (∀ t, t ∈ cancelled (hedge R ip) ↔
          t ∈ tasks_primary (hedge R ip) ++ tasks_secondary (hedge R ip)
          ∧ (t ∉ done (hedge R ip)))
  ∧ (∀ r, r ∈ results (hedge R ip) →
          ∃ t, t ∈ done (hedge R ip) ∧ (t ∉ cancelled (hedge R ip))
               ∧ t_result t = inr (Some r)).
Proof.
  assert (∀ dl t, finished_by dl t = true ↔ ∃ f, t_finish t = Some f ∧ f <= dl) as Hfin.
  { intros dl t. unfold finished_by. destruct (t_finish t) as [f|].
    - rewrite Z.leb_le. split; [intros; by exists f | by intros (? & [= <-] & ?)].
    - split; [done | by intros (? & ? & _)]. }
  split_and!; try reflexivity.
  - simpl. lia.
  - intros t. unfold hedge; simpl. rewrite list_elem_of_filter, Hfin.
    replace (loop_time R + 200 + 1600) with (loop_time R + 1800) by lia.
    replace (loop_time R + 200 + 1600) with (loop_time R + 1800) by lia.
    tauto.
  - intros t. unfold hedge; simpl. rewrite !list_elem_of_filter.
    destruct (finished_by _ t); split.
    + by intros [? _].
    + intros [Hin Hno]. by destruct Hno.
    + intros [_ Hin]. split; [done|]. by intros [? _].
    + by intros [Hin _].
  - intros r. unfold hedge; simpl.
    set (all := [_; _; _]).
    intros (t & Ht & Hr)%list_elem_of_In%in_flat_map.
    apply in_flat_map in Ht as (i & _ & Ht). apply list_elem_of_In in Ht.
    unfold nth_task in Ht. apply list_elem_of_filter in Ht as [_ Ht].
    exists t. split; [done|]. split.
    + apply list_elem_of_filter in Ht as [Ht _].
      rewrite list_elem_of_filter. intros [Hno _]. congruence.
    + destruct (t_result t) as [e|[r'|]]; simpl in Hr; [done| |done].
      destruct Hr as [->|[]]. done.
Qed.

(** C10 as stated fails: ipapi.co answers 1.7 s after the first wave was
    started, later than 1.6 s, and its record is merged all the same; the
    third provider, started at 0.2 s and due at 1.9 s, is the one that is
    cancelled. *)
Lemma hedge_deadline_counterexample :
  map t_launch (tasks_primary (hedge (runtime_of (client_of google_body) 1700) "8.8.8.8"))
  = [0; 0]
  ∧ map t_finish (tasks_primary (hedge (runtime_of (client_of google_body) 1700) "8.8.8.8"))
    = [Some 1700; Some 1700]
  ∧ (0 + 1600 <? 1700) = true
  ∧ map t_provider (done (hedge (runtime_of (client_of google_body) 1700) "8.8.8.8"))
    = [0%nat; 1%nat]
  ∧ map r_source (results (hedge (runtime_of (client_of google_body) 1700) "8.8.8.8"))
    = [["ipapi.co"]]
  ∧ map t_provider (cancelled (hedge (runtime_of (client_of google_body) 1700) "8.8.8.8"))
    = [2%nat]
  ∧ r_source <$> _merge_first_good
      (results (hedge (runtime_of (client_of google_body) 1700) "8.8.8.8"))
    = Some ["ipapi.co"].
Proof. split_and!; by vm_compute. Qed.

(** ** The error monad *)

Lemma bind_inr {A B} (m : exc A) (k : A -> exc B) (b : B) :
  bind m k = inr b → ∃ a, m = inr a ∧ k a = inr b.
Proof. destruct m as [e|a]; simpl; [done|]. intros H. by exists a. Qed.

Lemma try_except_none_total {A} (body : exc (option A)) :
  ∃ v, try_except body (fun _ => ret None) = inr v.
Proof. destruct body as [e|v]; simpl; eauto. Qed.

Lemma try_except_none_some {A} (body : exc (option A)) (a : A) :
  try_except body (fun _ => ret None) = inr (Some a) → body = inr (Some a).
Proof. by destruct body as [e|v]. Qed.

Lemma try_except_none_raise {A} (body : exc (option A)) (e : exn) :
  body = inl e → try_except body (fun _ => ret None) = inr None.
Proof. by intros ->. Qed.

(** Walks a hypothesis [body = inr v] down the binds of [body]. *)
Ltac exc_inv H :=
  repeat (cbv beta in H;
          match type of H with
          | bind _ _ = inr _ =>
              let a := fresh "v" in let Ha := fresh "E" in
              apply bind_inr in H as (a & Ha & H)
          | (if ?c then _ else _) = inr _ =>
              let Hc := fresh "C" in
              destruct c eqn:Hc; [try (by inversion H) | try (by inversion H)]
          end).

(** ** Providers *)

Lemma non_2xx_bad_status (r : response) :
  status_code r < 200 ∨ 299 < status_code r → bad_status (inr r).
Proof. intros H. exists r. split; [done|lia]. Qed.

Section ProviderFailures.
Context {A : Type} (k : pyval -> exc (option A)).

(** The common head of the three adapters. *)
Lemma fetch_no_data (o : exc response) :
  no_data o →
  try_except
    (r <- o ;;
     if negb (status_code r =? 200) then ret None else
     d <- json r ;; k d)
    (fun _ => ret None) = inr None.
Proof.
  intros [(e & ->)|[(r & -> & Hs)|(r & -> & e & Hj)]]; simpl.
  - done.
  - apply Z.eqb_neq in Hs. by rewrite Hs.
  - destruct (status_code r =? 200); simpl; [|done]. by rewrite Hj.
Qed.

End ProviderFailures.

(** C5. No adapter raises: each returns, for every address, environment
    and client; and it returns absent when the request fails in
    transport, the status is not 200, the body is not JSON, or (ipinfo,
    BigDataCloud) the token or key is not configured. *)
Theorem providers_never_raise (float_of_str : string -> exc spec_float)
    (repr : pyval -> string) (environ : gmap string string) (ip : string)
    (client : AsyncClient) :
  (∃ a, p_ipapi float_of_str repr ip client = inr a)
  ∧ (∃ b, p_ipinfo repr environ ip client = inr b)
  ∧ (∃ c, p_bigdatacloud float_of_str repr environ ip client = inr c)
  ∧ (no_data (client (ipapi_request ip)) →
     p_ipapi float_of_str repr ip client = inr None)
  ∧ (getenv environ "IPINFO_TOKEN" "" = ""
     ∨ no_data (client (ipinfo_request ip (getenv environ "IPINFO_TOKEN" ""))) →
     p_ipinfo repr environ ip client = inr None)
  ∧ (getenv environ "BDC_KEY" "" = ""
     ∨ no_data (client (bigdatacloud_request ip (getenv environ "BDC_KEY" ""))) →
     p_bigdatacloud float_of_str repr environ ip client = inr None).
Proof.
  split_and!.
  - apply try_except_none_total.
  - unfold p_ipinfo. destruct (String.eqb _ ""); [by eexists|].
    apply try_except_none_total.
  - unfold p_bigdatacloud. destruct (String.eqb _ ""); [by eexists|].
    apply try_except_none_total.
  - intros H. by apply fetch_no_data.
  - unfold p_ipinfo. intros [->|H]; [done|].
    destruct (String.eqb _ ""); [done|]. by apply fetch_no_data.
  - unfold p_bigdatacloud. intros [->|H]; [done|].
    destruct (String.eqb _ ""); [done|]. by apply fetch_no_data.
Qed.

(** Each failure, run: a client that is down, a 404, a 204, a body that
    does not parse, and a working client with no credential configured. *)
Example providers_fail_soft :
  p_ipapi float_of_str_unreached repr_unreached "8.8.8.8" client_down = inr None
  ∧ p_ipapi float_of_str_unreached repr_unreached "8.8.8.8"
      (fun _ => ret {| status_code := 404; json := ret google_body |}) = inr None
  ∧ p_ipapi float_of_str_unreached repr_unreached "8.8.8.8"
      (fun _ => ret {| status_code := 204; json := ret google_body |}) = inr None
  ∧ p_ipapi float_of_str_unreached repr_unreached "8.8.8.8"
      (fun _ => ret {| status_code := 200; json := raise JSONDecodeError |}) = inr None
  ∧ p_ipinfo repr_unreached ∅ "8.8.8.8" (client_of google_body) = inr None
  ∧ p_bigdatacloud float_of_str_unreached repr_unreached ∅ "8.8.8.8"
      (client_of google_body) = inr None
  ∧ p_bigdatacloud float_of_str_unreached repr_unreached {[ "BDC_KEY" := "k" ]}
      "8.8.8.8" (client_of (PList [])) = inr None.
Proof. split_and!; by vm_compute. Qed.

(** What stands behind the "asn", "company" and "loc" of a record an
    adapter returned. *)
Lemma p_ipapi_some (float_of_str : string -> exc spec_float)
    (repr : pyval -> string) (ip : string) (client : AsyncClient) (r : record) :
  p_ipapi float_of_str repr ip client = inr (Some r) →
  ∃ asn org isp lat lon,
    _asn_block repr asn org = inr (r_asn r)
    ∧ _isp_to_company isp = inr (r_company r)
    ∧ _norm_coord float_of_str lat lon = inr (r_loc r).
Proof.
  intros H%try_except_none_some. exc_inv H.
  injection H as <-. simpl. eauto 10.
Qed.

Lemma p_ipinfo_some (repr : pyval -> string) (environ : gmap string string)
    (ip : string) (client : AsyncClient) (r : record) :
  p_ipinfo repr environ ip client = inr (Some r) →
  ∃ asn org isp d,
    _asn_block repr asn org = inr (r_asn r)
    ∧ _isp_to_company isp = inr (r_company r)
    ∧ py_get d "loc" = inr (r_loc r).
Proof.
  unfold p_ipinfo. destruct (String.eqb _ ""); [done|].
  intros H%try_except_none_some. exc_inv H.
  injection H as <-. simpl. eauto 10.
Qed.

Lemma p_bigdatacloud_some (float_of_str : string -> exc spec_float)
    (repr : pyval -> string) (environ : gmap string string) (ip : string)
    (client : AsyncClient) (r : record) :
  p_bigdatacloud float_of_str repr environ ip client = inr (Some r) →
  ∃ asn org isp lat lon,
    _asn_block repr asn org = inr (r_asn r)
    ∧ _isp_to_company isp = inr (r_company r)
    ∧ _norm_coord float_of_str lat lon = inr (r_loc r).
Proof.
  unfold p_bigdatacloud. destruct (String.eqb _ ""); [done|].
  intros H%try_except_none_some. exc_inv H.
  injection H as <-. simpl. eauto 10.
Qed.

Lemma lstrip_head (chars s : string) :
  lstrip chars s = ""
  ∨ ∃ c rest, lstrip chars s = String c rest ∧ mem_char c chars = false.
Proof.
  induction s as [|c r IH]; simpl; [by left|].
  destruct (mem_char c chars) eqn:Hc; [done|]. right. by exists c, r.
Qed.

Lemma _asn_block_shape (repr : pyval -> string) (asn org : pyval) (b : asn_block) :
  _asn_block repr asn org = inr b →
  (asn_asn b = "" ∨ asn_prefixed (asn_asn b)) ∧ asn_domain b = "".
Proof.
  unfold _asn_block. intros H. exc_inv H. injection H as <-. simpl.
  split; [|done].
  destruct (lstrip_head "AS" (upper (py_str repr (py_or asn (PStr "")))))
    as [->|(c & rest & -> & Hc)]; [by left|].
  right. exists c, rest. split; [done|].
  simpl in Hc. apply orb_false_elim in Hc as [HA Hc].
  apply orb_false_elim in Hc as [HS _].
  split; intros ->; done.
Qed.

Lemma digit_not_upper (c : ascii) :
  is_digit c = true → upper_char c = c ∧ mem_char c "AS" = false.
Proof.
  unfold is_digit, upper_char. intros [H1 H2]%andb_prop.
  apply Z.leb_le in H1, H2. split.
  - destruct (97 <=? ascii_code c) eqn:H; [|done]. apply Z.leb_le in H. lia.
  - simpl. destruct (Ascii.eqb_spec c "A") as [->|_]; [by vm_compute in H2|].
    destruct (Ascii.eqb_spec c "S") as [->|_]; [by vm_compute in H2|]. done.
Qed.

Lemma upper_digits (ds : string) : all_digits ds = true → upper ds = ds.
Proof.
  induction ds as [|c r IH]; simpl; [done|].
  intros [Hc Hr]%andb_prop. unfold upper in *. simpl.
  by rewrite (proj1 (digit_not_upper c Hc)), IH.
Qed.

(** X4. When the provider sends digits, with "AS" before them or not,
    asn.asn is "AS" and those digits. *)
Lemma _asn_block_digits (repr : pyval -> string) (ds : string) (org : pyval)
    (b : asn_block) :
  ds ≠ "" → all_digits ds = true →
  _asn_block repr (PStr ("AS" +:+ ds)) org = inr b
  ∨ _asn_block repr (PStr ds) org = inr b →
  asn_asn b = "AS" +:+ ds ∧ is_as_digits (asn_asn b) = true.
Proof.
  intros Hne Hds H.
  assert (lstrip "AS" ds = ds ∧ String.eqb ds "" = false
          ∧ is_as_digits ("AS" +:+ ds) = true) as (Hl & He & Hok).
  { destruct ds as [|c r]; [done|]. simpl in Hds.
    apply andb_prop in Hds as [Hc Hr]. split_and!.
    - cbn [lstrip]. by rewrite (proj2 (digit_not_upper c Hc)).
    - done.
    - simpl. rewrite Hc. clear -Hr.
      induction r as [|c' r IH]; simpl in *; [done|].
      apply andb_prop in Hr as [-> Hr]. by apply IH. }
  assert (asn_asn b = if String.eqb (lstrip "AS" ds) "" then ""
                      else "AS" +:+ lstrip "AS" ds) as ->.
  { destruct H as [H|H]; unfold _asn_block in H; exc_inv H;
      injection H as <-; cbn [asn_asn].
    - unfold py_or. cbn [truthy String.eqb append Ascii.eqb Bool.eqb negb py_str].
      change (upper ("AS" +:+ ds)) with (String "A" (String "S" (upper ds))).
      by rewrite upper_digits.
    - unfold py_or. cbn [truthy]. rewrite He. cbn [negb py_str].
      by rewrite upper_digits. }
  by rewrite Hl, He.
Qed.

Lemma _isp_to_company_domain (isp : pyval) (c : company_block) :
  _isp_to_company isp = inr c → co_domain c = "".
Proof. unfold _isp_to_company. intros H. exc_inv H. by injection H as <-. Qed.

(** C9, as amended. In every record an adapter or the merge returns,
    asn.asn is empty or "AS" followed by a non-empty text that does not
    start with A or S (whatever the provider sent, upper-cased, leading
    A's and S's dropped), and asn.domain and company.domain are empty. *)
Theorem produced_asn_and_domains (r : record) :
  produced r →
  (asn_asn (r_asn r) = "" ∨ asn_prefixed (asn_asn (r_asn r)))
  ∧ asn_domain (r_asn r) = ""
  ∧ co_domain (r_company r) = "".
Proof.
  induction 1 as [fos rp ip cl r H | rp env ip cl r H | fos rp env ip cl r H
                  | results r Hall IH Hm].
  - apply p_ipapi_some in H as (a & o & i & _ & _ & Ha & Hc & _).
    apply _asn_block_shape in Ha as [? ?]. by apply _isp_to_company_domain in Hc.
  - apply p_ipinfo_some in H as (a & o & i & _ & Ha & Hc & _).
    apply _asn_block_shape in Ha as [? ?]. by apply _isp_to_company_domain in Hc.
  - apply p_bigdatacloud_some in H as (a & o & i & _ & _ & Ha & Hc & _).
    apply _asn_block_shape in Ha as [? ?]. by apply _isp_to_company_domain in Hc.
  - destruct results as [|r0 rs]; [done|].
    destruct (merge_first_good_ranked (r0 :: rs)) as (best & rest & Hs & Hm');
      [done|].
    rewrite Hm in Hm'. injection Hm' as ->.
    apply (IH best). rewrite <- (sort_desc_perm score (r0 :: rs)), Hs. by left.
Qed.

Lemma produced_asn_and_domains_example :
  produced google_merged
  ∧ (asn_asn (r_asn google_merged) = "" ∨ asn_prefixed (asn_asn (r_asn google_merged)))
  ∧ asn_domain (r_asn google_merged) = ""
  ∧ co_domain (r_company google_merged) = "".
Proof.
  assert (produced google_merged) as H.
  { apply (produced_merge
             (results (hedge (runtime_of (client_of google_body) 50) "8.8.8.8")));
      [|by vm_compute].
    intros c Hc. vm_compute in Hc. apply list_elem_of_singleton in Hc as ->.
    apply (produced_ipapi float_of_str_unreached repr_unreached "8.8.8.8"
             (client_of google_body)).
    by vm_compute. }
  split; [exact H|]. exact (produced_asn_and_domains google_merged H).
Defined.

(** C9 as stated fails: ipinfo.io answers with an "org" that does not
    start with an AS number, and the record's asn.asn is "ASGOOGLE",
    neither empty nor "AS" and digits. *)
Lemma asn_not_digits_counterexample :
  p_ipinfo repr_unreached {[ "IPINFO_TOKEN" := "t" ]} "8.8.8.8"
    (client_of (PDict [("org", PStr "Google LLC")]))
  = inr (Some google_llc_record)
  ∧ asn_asn (r_asn google_llc_record) = "ASGOOGLE"
  ∧ String.eqb (asn_asn (r_asn google_llc_record)) "" = false
  ∧ is_as_digits (asn_asn (r_asn google_llc_record)) = false
  ∧ is_as_digits "AS15169" = true.
Proof. split_and!; by vm_compute. Qed.

(** ** Coordinates *)

Lemma is_digit_digit_char (d : Z) : 0 <= d < 10 → is_digit (digit_char d) = true.
Proof.
  intros H.
  assert (d = 0 ∨ d = 1 ∨ d = 2 ∨ d = 3 ∨ d = 4 ∨ d = 5 ∨ d = 6 ∨ d = 7
          ∨ d = 8 ∨ d = 9) as Hd by lia.
  repeat (destruct Hd as [->|Hd]; [reflexivity|]). by subst.
Qed.

Lemma pad6_six_digits (n : Z) :
  String.length (pad6 n) = 6%nat
  ∧ forallb is_digit (list_ascii_of_string (pad6 n)) = true.
Proof.
  split; [reflexivity|]. unfold pad6. simpl.
  rewrite !is_digit_digit_char; [done|..]; by apply Z.mod_pos_bound.
Qed.

Lemma fmt6_six_decimals (x : spec_float) :
  (∀ s, x ≠ S754_infinity s) → x ≠ S754_nan → six_decimals (fmt6 x).
Proof.
  intros Hinf Hnan. destruct x as [s|s| |s m e]; simpl.
  - exists (sign_str s +:+ "0"), (pad6 0). split; [by destruct s|].
    apply pad6_six_digits.
  - by destruct (Hinf s).
  - done.
  - exists (sign_str s +:+ str_of_Z (scaled6 m e / 1000000)), (pad6 (scaled6 m e)).
    split; [by destruct s|]. apply pad6_six_digits.
Qed.

Lemma in_range_finite (lo hi : Z) (x : spec_float) :
  (∃ s m e, float_of_dec lo 0 = S754_finite s m e) →
  (∃ s m e, float_of_dec hi 0 = S754_finite s m e) →
  in_range lo hi x → (∀ s, x ≠ S754_infinity s) ∧ x ≠ S754_nan.
Proof.
  intros (s1 & m1 & e1 & Hlo) (s2 & m2 & e2 & Hhi) [H1 H2].
  rewrite Hlo in H1. rewrite Hhi in H2. unfold float_le, SFleb in *.
  destruct x as [s|s| |s m e]; try done; split; try done.
  intros s' [= <-]. destruct s; simpl in *; [by destruct s1 | by destruct s2].
Qed.

Section NormCoord.
Variable float_of_str : string -> exc spec_float.

Lemma _norm_coord_total (lat lon : pyval) :
  ∃ v, _norm_coord float_of_str lat lon = inr v.
Proof.
  unfold _norm_coord.
  destruct (try_except _ _) as [e|[s|]] eqn:H; simpl; eauto.
  unfold try_except in H. by destruct (bind _ _).
Qed.

(** What [_norm_coord] returns is a normalised loc, made of
    [float(lat)] and [float(lon)]. *)
Lemma _norm_coord_normalised (lat lon v : pyval) :
  _norm_coord float_of_str lat lon = inr v →
  normalised_loc v
  ∧ (v ≠ PNone →
     ∃ la lo, py_float float_of_str lat = inr la
              ∧ py_float float_of_str lon = inr lo
              ∧ in_range (-90) 90 la ∧ in_range (-180) 180 lo
              ∧ v = PStr (fmt6 la +:+ "," +:+ fmt6 lo)).
Proof.
  unfold _norm_coord. intros H.
  destruct (py_float float_of_str lat) as [e|la] eqn:Hla; simpl in H.
  { injection H as <-. split; [by left | done]. }
  destruct (py_float float_of_str lon) as [e|lo] eqn:Hlo; simpl in H.
  { injection H as <-. split; [by left | done]. }
  destruct (_ && _) eqn:Hr; simpl in H; injection H as <-;
    [|split; [by left | done]].
  apply andb_prop in Hr as [Hr H4]. apply andb_prop in Hr as [Hr H3].
  apply andb_prop in Hr as [H1 H2].
  assert (in_range (-90) 90 la) as Rla by done.
  assert (in_range (-180) 180 lo) as Rlo by done.
  split; [right|intros _]; exists la, lo; split_and!; try done.
  - apply fmt6_six_decimals; eapply in_range_finite; try exact Rla;
      by vm_compute; eauto.
  - apply fmt6_six_decimals; eapply in_range_finite; try exact Rlo;
      by vm_compute; eauto.
Qed.

(** The spec's examples: 37.5 and -122.3; a latitude of 95. *)
Lemma _norm_coord_example :
  _norm_coord float_of_str (PFloat (float_of_dec 375 (-1)))
    (PFloat (float_of_dec (-1223) (-1)))
  = inr (PStr "37.500000,-122.300000").
Proof. by vm_compute. Qed.

Lemma _norm_coord_latitude_95 (lon : pyval) :
  _norm_coord float_of_str (PInt 95) lon = inr PNone
  ∧ _norm_coord float_of_str (PFloat (float_of_dec 95 0)) lon = inr PNone.
Proof.
  assert (float_of_int 95 = inr (float_of_dec 95 0)) as H95 by (by vm_compute).
  assert (float_le (float_of_dec 95 0) (float_of_dec 90 0) = false) as Hout
    by (by vm_compute).
  unfold _norm_coord.
  change (py_float float_of_str (PInt 95)) with (float_of_int 95).
  change (py_float float_of_str (PFloat (float_of_dec 95 0)))
    with (@inr exn _ (float_of_dec 95 0)).
  rewrite H95. cbn [bind].
  destruct (py_float float_of_str lon) as [e|lo]; cbn [bind try_except ret]; [done|].
  by rewrite Hout, andb_false_r.
Qed.

(** The two adapters that go through [_norm_coord] return a normalised
    loc. *)
Lemma p_ipapi_loc_normalised (repr : pyval -> string) (ip : string)
    (client : AsyncClient) (r : record) :
  p_ipapi float_of_str repr ip client = inr (Some r) → normalised_loc (r_loc r).
Proof.
  intros (_ & _ & _ & lat & lon & _ & _ & H)%p_ipapi_some.
  by apply _norm_coord_normalised in H as [? _].
Qed.

Lemma p_bigdatacloud_loc_normalised (repr : pyval -> string)
    (environ : gmap string string) (ip : string) (client : AsyncClient)
    (r : record) :
  p_bigdatacloud float_of_str repr environ ip client = inr (Some r) →
  normalised_loc (r_loc r).
Proof.
  intros (_ & _ & _ & lat & lon & _ & _ & H)%p_bigdatacloud_some.
  by apply _norm_coord_normalised in H as [? _].
Qed.

End NormCoord.

(** C2 does not hold of [p_ipinfo]: it hands the provider's "loc" on as
    it came, here with four decimals, and with no check of the range
    ("95,200" comes out as "95,200"); the other two adapters normalise. *)
Lemma ipinfo_loc_not_normalised :
  p_ipinfo repr_unreached {[ "IPINFO_TOKEN" := "t" ]} "8.8.8.8" (client_of ipinfo_body)
  = inr (Some ipinfo_record)
  ∧ r_loc ipinfo_record = PStr "37.4056,-122.0775"
  ∧ loc_text_ok "37.4056,-122.0775" = false
  ∧ loc_text_ok "37.500000,-122.300000" = true
  ∧ match p_ipinfo repr_unreached {[ "IPINFO_TOKEN" := "t" ]} "8.8.8.8"
            (client_of (PDict [("loc", PStr "95,200")])) with
    | inr (Some r) => r_loc r
    | _ => PNone
    end = PStr "95,200".
Proof. split_and!; by vm_compute. Qed.

(** ** More on the coordinates *)

(** X1. [_norm_coord] never raises, whatever it is given, and what it returns
    is absent or a pair of in-range coordinates with six decimals each. *)
Theorem norm_coord_total_normalised (float_of_str : string -> exc spec_float)
    (lat lon : pyval) :
  ∃ v, _norm_coord float_of_str lat lon = inr v ∧ normalised_loc v.
Proof.
  destruct (_norm_coord_total float_of_str lat lon) as [v Hv].
  exists v. split; [done|]. by apply _norm_coord_normalised in Hv as [? _].
Qed.

(** X2. A coordinate that [float] refuses (None, a list, a dict, an int too
    large), or that is an infinity or a NaN, makes the whole loc absent,
    in either position and whatever the other coordinate is. *)
Theorem norm_coord_rejects (float_of_str : string -> exc spec_float)
    (bad other : pyval) :
  (∃ e, py_float float_of_str bad = inl e)
  ∨ (∃ x, py_float float_of_str bad = inr x
          ∧ (x = S754_nan ∨ (∃ s, x = S754_infinity s))) →
  _norm_coord float_of_str bad other = inr PNone
  ∧ _norm_coord float_of_str other bad = inr PNone.
Proof.
  intros H. unfold _norm_coord.
  destruct H as [(e & He)|(x & Hx & Hbad)]; rewrite ?He, ?Hx; cbn [bind try_except ret].
  - split; [done|]. by destruct (py_float float_of_str other).
  - assert (∀ lo hi, (lo, hi) = (-90, 90) ∨ (lo, hi) = (-180, 180) →
              float_le (float_of_dec lo 0) x && float_le x (float_of_dec hi 0) = false)
      as Hout.
    { intros lo hi [[= -> ->]|[= -> ->]];
        destruct Hbad as [->|[[|] ->]]; by vm_compute. }
    split.
    + destruct (py_float float_of_str other) as [e|lo]; cbn [bind try_except ret]; [done|].
      by rewrite (Hout (-90) 90) by auto.
    + destruct (py_float float_of_str other) as [e|la]; cbn [bind try_except ret]; [done|].
      rewrite <- !andb_assoc, (Hout (-180) 180) by auto.
      by rewrite !andb_false_r.
Qed.

Lemma norm_coord_rejects_example :
  ((∃ e, py_float float_of_str_unreached PNone = inl e)
   ∨ (∃ x, py_float float_of_str_unreached PNone = inr x
           ∧ (x = S754_nan ∨ (∃ s, x = S754_infinity s))))
  ∧ _norm_coord float_of_str_unreached PNone (PInt 10) = inr PNone
  ∧ _norm_coord float_of_str_unreached (PInt 10) PNone = inr PNone.
Proof.
  assert ((∃ e, py_float float_of_str_unreached PNone = inl e)
          ∨ (∃ x, py_float float_of_str_unreached PNone = inr x
                  ∧ (x = S754_nan ∨ (∃ s, x = S754_infinity s)))) as H
    by (left; by exists TypeError).
  split; [exact H|].
  exact (norm_coord_rejects float_of_str_unreached PNone (PInt 10) H).
Defined.

(** ** More on the providers *)

(** X3. The records of [p_ipapi] and [p_bigdatacloud] carry a normalised
    loc: absent, or in-range coordinates with six decimals. *)
Theorem normalising_adapters_loc (float_of_str : string -> exc spec_float)
    (repr : pyval -> string) (environ : gmap string string) (ip : string)
    (client : AsyncClient) (r : record) :
  p_ipapi float_of_str repr ip client = inr (Some r)
  ∨ p_bigdatacloud float_of_str repr environ ip client = inr (Some r) →
  normalised_loc (r_loc r).
Proof.
  intros [H|H].
  - apply p_ipapi_some in H as (_ & _ & _ & lat & lon & _ & _ & H).
    by apply _norm_coord_normalised in H as [? _].
  - apply p_bigdatacloud_some in H as (_ & _ & _ & lat & lon & _ & _ & H).
    by apply _norm_coord_normalised in H as [? _].
Qed.

Lemma p_ipapi_google :
  p_ipapi float_of_str_unreached repr_unreached "8.8.8.8" (client_of google_body)
  = inr (Some google_record).
Proof. by vm_compute. Qed.

Lemma normalising_adapters_loc_example :
  (p_ipapi float_of_str_unreached repr_unreached "8.8.8.8" (client_of google_body)
   = inr (Some google_record)
   ∨ p_bigdatacloud float_of_str_unreached repr_unreached ∅ "8.8.8.8"
       (client_of google_body) = inr (Some google_record))
  ∧ normalised_loc (r_loc google_record).
Proof.
  assert (p_ipapi float_of_str_unreached repr_unreached "8.8.8.8" (client_of google_body)
          = inr (Some google_record)
          ∨ p_bigdatacloud float_of_str_unreached repr_unreached ∅ "8.8.8.8"
              (client_of google_body) = inr (Some google_record)) as H
    by (left; exact p_ipapi_google).
  split; [exact H|].
  exact (normalising_adapters_loc float_of_str_unreached repr_unreached ∅ "8.8.8.8"
           (client_of google_body) google_record H).
Defined.

(** Digits sent as the ASN, with "AS" before them or not, come out as
    "AS" and those digits. *)
Lemma _asn_block_digits_example :
  "15169" ≠ "" ∧ all_digits "15169" = true
  ∧ (_asn_block repr_unreached (PStr ("AS" +:+ "15169")) (PStr "Google LLC")
     = inr (r_asn google_record)
     ∨ _asn_block repr_unreached (PStr "15169") (PStr "Google LLC")
       = inr (r_asn google_record))
  ∧ asn_asn (r_asn google_record) = "AS" +:+ "15169"
  ∧ is_as_digits (asn_asn (r_asn google_record)) = true.
Proof.
  assert ("15169" ≠ "") as H1 by discriminate.
  assert (all_digits "15169" = true) as H2 by reflexivity.
  assert (_asn_block repr_unreached (PStr ("AS" +:+ "15169")) (PStr "Google LLC")
          = inr (r_asn google_record)
          ∨ _asn_block repr_unreached (PStr "15169") (PStr "Google LLC")
            = inr (r_asn google_record)) as H3 by (left; reflexivity).
  split; [exact H1|]. split; [exact H2|]. split; [exact H3|].
  exact (_asn_block_digits repr_unreached "15169" (PStr "Google LLC")
           (r_asn google_record) H1 H2 H3).
Defined.

(** The source of an adapter's record is that adapter's tag, and the
    two adapters that need a credential have it. *)
Lemma adapter_output_source (float_of_str : string -> exc spec_float)
    (repr : pyval -> string) (environ : gmap string string) (ip : string)
    (client : AsyncClient) (r : record) :
  adapter_output float_of_str repr environ ip client r →
  r_source r = ["ipapi.co"]
  ∨ (r_source r = ["ipinfo.io"] ∧ getenv environ "IPINFO_TOKEN" "" ≠ "")
  ∨ (r_source r = ["bigdatacloud"] ∧ getenv environ "BDC_KEY" "" ≠ "").
Proof.
  intros [H|[H|H]].
  - apply try_except_none_some in H. exc_inv H. injection H as <-. by left.
  - unfold p_ipinfo in H.
    destruct (String.eqb _ "") eqn:Htok; [done|]. apply String.eqb_neq in Htok.
    apply try_except_none_some in H. exc_inv H. injection H as <-.
    right. by left.
  - unfold p_bigdatacloud in H.
    destruct (String.eqb _ "") eqn:Hkey; [done|]. apply String.eqb_neq in Hkey.
    apply try_except_none_some in H. exc_inv H. injection H as <-.
    right. by right.
Qed.

(** The head of every adapter: a record comes only out of a response
    with status 200 whose body parsed. *)
Lemma fetch_some {A : Type} (k : pyval -> exc (option A)) (o : exc response) (a : A) :
  try_except
    (r <- o ;;
     if negb (status_code r =? 200) then ret None else
     d <- json r ;;
     k d)
    (fun _ => ret None) = inr (Some a) →
  ∃ resp d, o = inr resp ∧ status_code resp = 200 ∧ json resp = inr d
            ∧ k d = inr (Some a).
Proof.
  intros H%try_except_none_some.
  apply bind_inr in H as (resp & -> & H).
  destruct (negb (status_code resp =? 200)) eqn:Hst; [done|].
  apply negb_false_iff, Z.eqb_eq in Hst.
  apply bind_inr in H as (d & Hd & H). by exists resp, d.
Qed.

(** X5. Each adapter, and what the record it returns says of where it
    came from. [p_ipapi]: the only source is "ipapi.co". [p_ipinfo]: the
    only source is "ipinfo.io", and the token is configured.
    [p_bigdatacloud]: the only source is "bigdatacloud", the key is
    configured, and the address is the one that was asked about, whatever
    the body says. For the first two the address is the body's "ip" when
    that is true, and the one asked about otherwise. Every record comes
    out of a response with status 200 to that adapter's request, and
    carries neither confidence nor age_ms. *)
Theorem adapter_output_tags (float_of_str : string -> exc spec_float)
    (repr : pyval -> string) (environ : gmap string string) (ip : string)
    (client : AsyncClient) (r : record) :
  (p_ipapi float_of_str repr ip client = inr (Some r) →
   r_source r = ["ipapi.co"] ∧ r_confidence r = None ∧ r_age_ms r = None
   ∧ ∃ resp d d_ip,
       client (ipapi_request ip) = inr resp ∧ status_code resp = 200
       ∧ json resp = inr d ∧ py_get d "ip" = inr d_ip
       ∧ r_ip r = py_or d_ip (PStr ip))
  ∧ (p_ipinfo repr environ ip client = inr (Some r) →
     r_source r = ["ipinfo.io"] ∧ r_confidence r = None ∧ r_age_ms r = None
     ∧ getenv environ "IPINFO_TOKEN" "" ≠ ""
     ∧ ∃ resp d d_ip,
         client (ipinfo_request ip (getenv environ "IPINFO_TOKEN" "")) = inr resp
         ∧ status_code resp = 200
         ∧ json resp = inr d ∧ py_get d "ip" = inr d_ip
         ∧ r_ip r = py_or d_ip (PStr ip))
  ∧ (p_bigdatacloud float_of_str repr environ ip client = inr (Some r) →
     r_source r = ["bigdatacloud"] ∧ r_confidence r = None ∧ r_age_ms r = None
     ∧ getenv environ "BDC_KEY" "" ≠ ""
     ∧ r_ip r = PStr ip
     ∧ ∃ resp d,
         client (bigdatacloud_request ip (getenv environ "BDC_KEY" "")) = inr resp
         ∧ status_code resp = 200 ∧ json resp = inr d).
Proof.
  split_and!.
  - intros (resp & d & Hresp & Hst & Hd & H)%fetch_some.
    exc_inv H. injection H as <-. cbn [r_source r_confidence r_age_ms r_ip].
    split_and!; try done. exists resp, d. eauto 10.
  - unfold p_ipinfo.
    destruct (String.eqb _ "") eqn:Htok; [done|]. apply String.eqb_neq in Htok.
    intros (resp & d & Hresp & Hst & Hd & H)%fetch_some.
    exc_inv H; injection H as <-; cbn [r_source r_confidence r_age_ms r_ip];
      (split_and!; try done); exists resp, d; eauto 10.
  - unfold p_bigdatacloud.
    destruct (String.eqb _ "") eqn:Hkey; [done|]. apply String.eqb_neq in Hkey.
    intros (resp & d & Hresp & Hst & Hd & H)%fetch_some.
    exc_inv H; injection H as <-; cbn [r_source r_confidence r_age_ms r_ip];
      (split_and!; try done); by exists resp, d.
Qed.

(** The three adapters on the answers above: ipapi.co with no credential,
    ipinfo.io with its token, BigDataCloud with its key. *)
Lemma adapter_output_tags_example :
  p_ipapi float_of_str_unreached repr_unreached "8.8.8.8" (client_of google_body)
  = inr (Some google_record)
  ∧ p_ipinfo repr_unreached {[ "IPINFO_TOKEN" := "t" ]} "8.8.8.8" (client_of ipinfo_body)
    = inr (Some ipinfo_record)
  ∧ p_bigdatacloud float_of_str_unreached repr_unreached {[ "BDC_KEY" := "k" ]}
      "8.8.8.8" (client_of bdc_body)
    = inr (Some bdc_record)
  ∧ (r_source google_record = ["ipapi.co"]
     ∧ r_confidence google_record = None ∧ r_age_ms google_record = None
     ∧ ∃ resp d d_ip,
         client_of google_body (ipapi_request "8.8.8.8") = inr resp
         ∧ status_code resp = 200
         ∧ json resp = inr d ∧ py_get d "ip" = inr d_ip
         ∧ r_ip google_record = py_or d_ip (PStr "8.8.8.8"))
  ∧ (r_source ipinfo_record = ["ipinfo.io"]
     ∧ r_confidence ipinfo_record = None ∧ r_age_ms ipinfo_record = None
     ∧ getenv {[ "IPINFO_TOKEN" := "t" ]} "IPINFO_TOKEN" "" ≠ ""
     ∧ ∃ resp d d_ip,
         client_of ipinfo_body
           (ipinfo_request "8.8.8.8" (getenv {[ "IPINFO_TOKEN" := "t" ]} "IPINFO_TOKEN" ""))
         = inr resp
         ∧ status_code resp = 200
         ∧ json resp = inr d ∧ py_get d "ip" = inr d_ip
         ∧ r_ip ipinfo_record = py_or d_ip (PStr "8.8.8.8"))
  ∧ (r_source bdc_record = ["bigdatacloud"]
     ∧ r_confidence bdc_record = None ∧ r_age_ms bdc_record = None
     ∧ getenv {[ "BDC_KEY" := "k" ]} "BDC_KEY" "" ≠ ""
     ∧ r_ip bdc_record = PStr "8.8.8.8"
     ∧ ∃ resp d,
         client_of bdc_body
           (bigdatacloud_request "8.8.8.8" (getenv {[ "BDC_KEY" := "k" ]} "BDC_KEY" ""))
         = inr resp
         ∧ status_code resp = 200 ∧ json resp = inr d).
Proof.
  assert (p_ipapi float_of_str_unreached repr_unreached "8.8.8.8"
            (client_of google_body) = inr (Some google_record)) as H1
    by exact p_ipapi_google.
  assert (p_ipinfo repr_unreached {[ "IPINFO_TOKEN" := "t" ]} "8.8.8.8"
            (client_of ipinfo_body) = inr (Some ipinfo_record)) as H2
    by (by vm_compute).
  assert (p_bigdatacloud float_of_str_unreached repr_unreached {[ "BDC_KEY" := "k" ]}
            "8.8.8.8" (client_of bdc_body) = inr (Some bdc_record)) as H3
    by (by vm_compute).
  split; [exact H1|]. split; [exact H2|]. split; [exact H3|].
  split; [|split].
  - exact (proj1 (adapter_output_tags float_of_str_unreached repr_unreached ∅
                    "8.8.8.8" (client_of google_body) google_record) H1).
  - exact (proj1 (proj2 (adapter_output_tags float_of_str_unreached repr_unreached
                           {[ "IPINFO_TOKEN" := "t" ]} "8.8.8.8"
                           (client_of ipinfo_body) ipinfo_record)) H2).
  - exact (proj2 (proj2 (adapter_output_tags float_of_str_unreached repr_unreached
                           {[ "BDC_KEY" := "k" ]} "8.8.8.8"
                           (client_of bdc_body) bdc_record)) H3).
Defined.

Lemma _isp_to_company_type (isp : pyval) (c : company_block) :
  _isp_to_company isp = inr c → co_type c = "hosting" ∨ co_type c = "isp".
Proof.
  unfold _isp_to_company. intros H. exc_inv H. injection H as <-.
  cbn [co_type].
  match goal with |- context [if ?c then _ else _] => case c end; auto.
Qed.

Lemma _asn_block_type (repr : pyval -> string) (asn org : pyval) (b : asn_block) :
  _asn_block repr asn org = inr b → asn_type b = "hosting" ∨ asn_type b = "isp".
Proof.
  unfold _asn_block. intros H. exc_inv H. injection H as <-.
  cbn [asn_type].
  match goal with |- context [if ?c then _ else _] => case c end; auto.
Qed.

(** Two runs of the same call give the same value. *)
Ltac same_call :=
  repeat match goal with
  | H1 : ?t = inr ?a, H2 : ?t = inr ?b |- _ =>
      rewrite H1 in H2; injection H2 as <-
  end.

Lemma adapter_output_privacy (float_of_str : string -> exc spec_float)
    (repr : pyval -> string) (environ : gmap string string) (ip : string)
    (client : AsyncClient) (r : record) :
  adapter_output float_of_str repr environ ip client r →
  r_privacy r = _privacy_guess (co_type (r_company r))
  ∧ (∃ isp, _isp_to_company isp = inr (r_company r))
  ∧ (∃ asn org, _asn_block repr asn org = inr (r_asn r)).
Proof.
  intros [H|[H|H]].
  - apply try_except_none_some in H. exc_inv H. same_call.
    injection H as <-. simpl. split; [done|]. eauto.
  - unfold p_ipinfo in H. destruct (String.eqb _ ""); [done|].
    apply try_except_none_some in H. exc_inv H. same_call.
    injection H as <-. simpl. split; [done|]. eauto.
  - unfold p_bigdatacloud in H. destruct (String.eqb _ ""); [done|].
    apply try_except_none_some in H. exc_inv H. same_call.
    injection H as <-. simpl. split; [done|]. eauto.
Qed.

(** X6. In every record an adapter or the merge returns, the privacy flags
    vpn, proxy, tor and relay are off, privacy.hosting is on exactly when
    company.type is "hosting", and company.type and asn.type are each
    "hosting" or "isp". *)
Theorem produced_privacy (r : record) :
  produced r →
  vpn (r_privacy r) = false ∧ proxy (r_privacy r) = false
  ∧ tor (r_privacy r) = false ∧ relay (r_privacy r) = false
  ∧ (hosting (r_privacy r) = true ↔ co_type (r_company r) = "hosting")
  ∧ (co_type (r_company r) = "hosting" ∨ co_type (r_company r) = "isp")
  ∧ (asn_type (r_asn r) = "hosting" ∨ asn_type (r_asn r) = "isp").
Proof.
  assert (∀ fos rp env ip cl r0, adapter_output fos rp env ip cl r0 →
            vpn (r_privacy r0) = false ∧ proxy (r_privacy r0) = false
            ∧ tor (r_privacy r0) = false ∧ relay (r_privacy r0) = false
            ∧ (hosting (r_privacy r0) = true ↔ co_type (r_company r0) = "hosting")
            ∧ (co_type (r_company r0) = "hosting" ∨ co_type (r_company r0) = "isp")
            ∧ (asn_type (r_asn r0) = "hosting" ∨ asn_type (r_asn r0) = "isp")) as Had.
  { intros fos rp env ip cl r0 (Hp & (isp & Hc) & (asn & org & Ha))%adapter_output_privacy.
    rewrite Hp. simpl. split_and!; try done.
    - apply String.eqb_eq.
    - by apply _isp_to_company_type in Hc.
    - by apply _asn_block_type in Ha. }
  induction 1 as [fos rp ip cl r H | rp env ip cl r H | fos rp env ip cl r H
                  | results r Hall IH Hm].
  - apply (Had fos rp ∅ ip cl). by left.
  - apply (Had (fun _ => raise ValueError) rp env ip cl). right. by left.
  - apply (Had fos rp env ip cl). right. by right.
  - destruct results as [|r0 rs]; [done|].
    destruct (merge_first_good_ranked (r0 :: rs)) as (best & rest & Hs & Hm');
      [done|].
    rewrite Hm in Hm'. injection Hm' as ->.
    apply (IH best). rewrite <- (sort_desc_perm score (r0 :: rs)), Hs. by left.
Qed.

Lemma produced_google_merged : produced google_merged.
Proof.
  apply (produced_merge [google_record]); [|by vm_compute].
  intros c ->%list_elem_of_singleton.
  exact (produced_ipapi float_of_str_unreached repr_unreached "8.8.8.8"
           (client_of google_body) google_record p_ipapi_google).
Defined.

Lemma produced_privacy_example :
  produced google_merged
  ∧ vpn (r_privacy google_merged) = false ∧ proxy (r_privacy google_merged) = false
  ∧ tor (r_privacy google_merged) = false ∧ relay (r_privacy google_merged) = false
  ∧ (hosting (r_privacy google_merged) = true
     ↔ co_type (r_company google_merged) = "hosting")
  ∧ (co_type (r_company google_merged) = "hosting"
     ∨ co_type (r_company google_merged) = "isp")
  ∧ (asn_type (r_asn google_merged) = "hosting"
     ∨ asn_type (r_asn google_merged) = "isp").
Proof.
  split; [exact produced_google_merged|].
  exact (produced_privacy google_merged produced_google_merged).
Defined.

(** X7. An "org" that is truthy and not a string (a number, a list, an
    object) costs the whole record: [p_ipapi] and [p_ipinfo] both return
    absent, whatever else the body holds. *)
Theorem non_text_org_drops_record (float_of_str : string -> exc spec_float)
    (repr : pyval -> string) (environ : gmap string string) (ip : string)
    (client : AsyncClient) (resp : response) (d org : pyval) (e : exn) :
  json resp = inr d →
  py_get d "org" = inr org →
  truthy org = true →
  as_str org = inl e →
  (client (ipapi_request ip) = inr resp →
   p_ipapi float_of_str repr ip client = inr None)
  ∧ (client (ipinfo_request ip (getenv environ "IPINFO_TOKEN" "")) = inr resp →
     p_ipinfo repr environ ip client = inr None).
Proof.
  intros Hj Horg Ht He.
  destruct d as [| | | | | |kvs]; try discriminate Horg.
  assert (∀ k, py_get (PDict kvs) k = inr (default PNone (assoc k kvs))) as Hget
    by done.
  rewrite Hget in Horg. injection Horg as Horg.
  assert (∀ asn, _asn_block repr asn org = inl e) as Hasn.
  { intros asn. unfold _asn_block, py_or. by rewrite Ht, He. }
  split; intros Hc.
  - unfold p_ipapi. rewrite Hc. cbn [bind].
    destruct (negb _); [done|]. rewrite Hj. cbn [bind]. rewrite !Hget. cbn [bind].
    destruct (_norm_coord_total float_of_str
                (default PNone (assoc "latitude" kvs))
                (default PNone (assoc "longitude" kvs))) as [loc ->].
    cbn [bind]. by rewrite Horg, Hasn.
  - unfold p_ipinfo. destruct (String.eqb _ ""); [done|].
    rewrite Hc. cbn [bind].
    destruct (negb _); [done|]. rewrite Hj. cbn [bind]. rewrite !Hget. cbn [bind].
    rewrite Horg.
    assert (py_or org (PStr "") = org) as -> by (unfold py_or; by rewrite Ht).
    by rewrite Ht, He.
Qed.

Lemma non_text_org_drops_record_example :
  json {| status_code := 200;
          json := ret (PDict [("ip", PStr "8.8.8.8"); ("country", PStr "US");
                              ("org", PInt 15169)]) |}
  = inr (PDict [("ip", PStr "8.8.8.8"); ("country", PStr "US"); ("org", PInt 15169)])
  ∧ py_get (PDict [("ip", PStr "8.8.8.8"); ("country", PStr "US"); ("org", PInt 15169)])
      "org" = inr (PInt 15169)
  ∧ truthy (PInt 15169) = true
  ∧ as_str (PInt 15169) = inl AttributeError
  ∧ (client_of (PDict [("ip", PStr "8.8.8.8"); ("country", PStr "US");
                       ("org", PInt 15169)]) (ipapi_request "8.8.8.8")
     = inr {| status_code := 200;
              json := ret (PDict [("ip", PStr "8.8.8.8"); ("country", PStr "US");
                                  ("org", PInt 15169)]) |} →
     p_ipapi float_of_str_unreached repr_unreached "8.8.8.8"
       (client_of (PDict [("ip", PStr "8.8.8.8"); ("country", PStr "US");
                          ("org", PInt 15169)])) = inr None)
  ∧ (client_of (PDict [("ip", PStr "8.8.8.8"); ("country", PStr "US");
                       ("org", PInt 15169)])
       (ipinfo_request "8.8.8.8" (getenv {[ "IPINFO_TOKEN" := "t" ]} "IPINFO_TOKEN" ""))
     = inr {| status_code := 200;
              json := ret (PDict [("ip", PStr "8.8.8.8"); ("country", PStr "US");
                                  ("org", PInt 15169)]) |} →
     p_ipinfo repr_unreached {[ "IPINFO_TOKEN" := "t" ]} "8.8.8.8"
       (client_of (PDict [("ip", PStr "8.8.8.8"); ("country", PStr "US");
                          ("org", PInt 15169)])) = inr None).
Proof.
  split; [reflexivity|]. split; [reflexivity|]. split; [reflexivity|].
  split; [reflexivity|].
  exact (non_text_org_drops_record float_of_str_unreached repr_unreached
           {[ "IPINFO_TOKEN" := "t" ]} "8.8.8.8"
           (client_of (PDict [("ip", PStr "8.8.8.8"); ("country", PStr "US");
                              ("org", PInt 15169)]))
           {| status_code := 200;
              json := ret (PDict [("ip", PStr "8.8.8.8"); ("country", PStr "US");
                                  ("org", PInt 15169)]) |}
           (PDict [("ip", PStr "8.8.8.8"); ("country", PStr "US"); ("org", PInt 15169)])
           (PInt 15169) AttributeError eq_refl eq_refl eq_refl eq_refl).
Defined.

(** ** More on the merge *)

Lemma fromkeys_from_id (seen l : list string) :
  NoDup l → (∀ x, x ∈ l → x ∉ seen) → fromkeys_from seen l = l.
Proof.
  revert seen. induction l as [|k r IH]; intros seen Hnd Hs; simpl; [done|].
  apply NoDup_cons in Hnd as [Hk Hnd].
  rewrite bool_decide_eq_false_2 by (apply Hs; by left).
  f_equal. apply IH; [done|].
  intros x Hx [->|Hin]%elem_of_cons; [done|].
  apply (Hs x); [by right | done].
Qed.

Lemma fromkeys_id (l : list string) : NoDup l → fromkeys l = l.
Proof.
  intros Hnd. apply fromkeys_from_id; [done|]. by intros x _ ?%elem_of_nil.
Qed.

Lemma merge_first_good_of_ranking (results : list record) (best : record)
    (rest : list record) :
  sort_desc score results = best :: rest →
  _merge_first_good results = Some (merged_of best (best :: rest)).
Proof.
  intros Hs. destruct results as [|r0 rs]; [done|].
  destruct (merge_first_good_ranked (r0 :: rs)) as (b & rs' & Hs' & ->); [done|].
  rewrite Hs in Hs'. by injection Hs' as <- <-.
Qed.

(** A candidate that outscores every other one heads the ranking, wherever
    it stands in the list. *)
Lemma sort_desc_head_best (results : list record) (best : record) :
  best ∈ results →
  (∀ c, c ∈ results → c = best ∨ score c < score best) →
  ∃ rest, sort_desc score results = best :: rest.
Proof.
  intros Hin Hbest.
  destruct (sort_desc score results) as [|h rest] eqn:Hs.
  { destruct (sort_desc_nonempty score results); [|done].
    intros ->. by apply elem_of_nil in Hin. }
  destruct (sort_desc_head score results h rest Hs) as (l1 & l2 & -> & Hlt & Hle).
  destruct (Hbest h) as [->|Hh]; [set_solver | by exists rest |].
  apply elem_of_app in Hin as [Hin|[->|Hin]%elem_of_cons].
  - specialize (Hlt best Hin). lia.
  - by exists rest.
  - specialize (Hle best Hin). lia.
Qed.

(** X8. The merge does not depend on the order in which the candidates
    arrive when one of them outscores all others: for any two orders the
    winner is that candidate, the sources are the same up to order, and
    the confidence is the same. *)
Theorem merge_order_independent (results results' : list record) (best : record) :
  results ≡ₚ results' →
  best ∈ results →
  (∀ c, c ∈ results → c = best ∨ score c < score best) →
  ∃ m m',
    _merge_first_good results = Some m
    ∧ _merge_first_good results' = Some m'
    ∧ same_body m best ∧ same_body m' best
    ∧ r_source m ≡ₚ r_source m'
    ∧ r_confidence m = r_confidence m'
    ∧ r_age_ms m = Some 0 ∧ r_age_ms m' = Some 0.
Proof.
  intros Hperm Hin Hbest.
  destruct (sort_desc_head_best results best Hin Hbest) as [rest Hs].
  destruct (sort_desc_head_best results' best) as [rest' Hs'].
  { by rewrite <- Hperm. }
  { intros c Hc. apply Hbest. by rewrite Hperm. }
  exists (merged_of best (best :: rest)), (merged_of best (best :: rest')).
  assert (best :: rest ≡ₚ best :: rest') as Hranked.
  { rewrite <- Hs, <- Hs', !sort_desc_perm. done. }
  assert (r_source (merged_of best (best :: rest))
          ≡ₚ r_source (merged_of best (best :: rest'))) as Hsrc.
  { apply NoDup_Permutation; [apply fromkeys_from_NoDup..|].
    intros x. rewrite !source_of_merged. unfold fromkeys.
    rewrite !fromkeys_from_elem, !elem_of_concat_sources.
    split; intros [(c & Hc & Hx) Hno]; (split; [|done]); exists c;
      (split; [|done]); [by rewrite <- Hranked | by rewrite Hranked]. }
  split; [by apply merge_first_good_of_ranking|].
  split; [by apply merge_first_good_of_ranking|].
  split; [apply merged_of_same_body|]. split; [apply merged_of_same_body|].
  split; [done|]. split; [|done].
  apply Permutation_length in Hsrc. rewrite !source_of_merged in Hsrc.
  unfold merged_of. cbn [r_confidence set_age_ms set_confidence]. by rewrite Hsrc.
Qed.

Lemma merge_order_independent_example :
  [located_record "8.8.8.8" ["a"]; full_record "8.8.8.8" ["b"]]
  ≡ₚ [full_record "8.8.8.8" ["b"]; located_record "8.8.8.8" ["a"]]
  ∧ full_record "8.8.8.8" ["b"]
    ∈ [located_record "8.8.8.8" ["a"]; full_record "8.8.8.8" ["b"]]
  ∧ (∀ c, c ∈ [located_record "8.8.8.8" ["a"]; full_record "8.8.8.8" ["b"]] →
          c = full_record "8.8.8.8" ["b"]
          ∨ score c < score (full_record "8.8.8.8" ["b"]))
  ∧ ∃ m m',
      _merge_first_good [located_record "8.8.8.8" ["a"]; full_record "8.8.8.8" ["b"]]
      = Some m
      ∧ _merge_first_good [full_record "8.8.8.8" ["b"]; located_record "8.8.8.8" ["a"]]
        = Some m'
      ∧ same_body m (full_record "8.8.8.8" ["b"])
      ∧ same_body m' (full_record "8.8.8.8" ["b"])
      ∧ r_source m ≡ₚ r_source m'
      ∧ r_confidence m = r_confidence m'
      ∧ r_age_ms m = Some 0 ∧ r_age_ms m' = Some 0.
Proof.
  assert ([located_record "8.8.8.8" ["a"]; full_record "8.8.8.8" ["b"]]
          ≡ₚ [full_record "8.8.8.8" ["b"]; located_record "8.8.8.8" ["a"]]) as H1
    by apply Permutation_swap.
  assert (full_record "8.8.8.8" ["b"]
          ∈ [located_record "8.8.8.8" ["a"]; full_record "8.8.8.8" ["b"]]) as H2
    by (right; left).
  assert (∀ c, c ∈ [located_record "8.8.8.8" ["a"]; full_record "8.8.8.8" ["b"]] →
               c = full_record "8.8.8.8" ["b"]
               ∨ score c < score (full_record "8.8.8.8" ["b"])) as H3.
  { intros c [->|[->|[]%elem_of_nil]%elem_of_cons]%elem_of_cons;
      [right; by vm_compute | by left]. }
  split; [exact H1|]. split; [exact H2|]. split; [exact H3|].
  exact (merge_order_independent _ _ _ H1 H2 H3).
Defined.

(** X9. Merging a merged record again changes nothing. *)
Theorem merge_idempotent (results : list record) (m : record) :
  _merge_first_good results = Some m →
  _merge_first_good [m] = Some m.
Proof.
  intros Hm. destruct results as [|r0 rs]; [done|].
  destruct (merge_first_good_ranked (r0 :: rs)) as (best & rest & _ & Hm'); [done|].
  rewrite Hm in Hm'. injection Hm' as ->.
  rewrite (merge_first_good_of_ranking [_] (merged_of best (best :: rest)) [])
    by reflexivity.
  f_equal. unfold merged_of at 1. cbn [map concat]. rewrite app_nil_r.
  rewrite (fromkeys_id (r_source (merged_of best (best :: rest))))
    by apply fromkeys_from_NoDup.
  reflexivity.
Qed.

Lemma merge_idempotent_example :
  _merge_first_good [google_record] = Some google_merged
  ∧ _merge_first_good [google_merged] = Some google_merged.
Proof.
  assert (_merge_first_good [google_record] = Some google_merged) as H
    by (by vm_compute).
  split; [exact H|]. exact (merge_idempotent [google_record] google_merged H).
Defined.

(** ** More on the cache *)

(** With the in-process backend, what a read answers depends on the
    entry under its key alone. *)
Lemma Cache_get_mem_ext (a b : Cache) (now : spec_float) (key : string) :
  _redis a = None → _redis b = None →
  _mem a !! key = _mem b !! key →
  fst (Cache_get a now key) = fst (Cache_get b now key).
Proof.
  intros Ha Hb Hk. rewrite !Cache_get_mem, Hk by done.
  destruct (_mem b !! key) as [[exp val]|]; [|done].
  by destruct (float_lt exp now).
Qed.

(** X10. With the in-process backend a read or a write under one key leaves
    every other key alone: its entry, and what a read of it answers at
    any time. A write that raises leaves the whole cache as it was. *)
Theorem cache_other_keys_untouched (self : Cache) (now : spec_float)
    (key other : string) :
  _redis self = None →
  other ≠ key →
  (∀ got self', Cache_get self now key = (got, self') →
     _redis self' = None
     ∧ _mem self' !! other = _mem self !! other
     ∧ ∀ t, fst (Cache_get self' t other) = fst (Cache_get self t other))
  ∧ (∀ val ttl written stored, Cache_set self now key val ttl = (written, stored) →
       _redis stored = None
       ∧ _mem stored !! other = _mem self !! other
       ∧ (∀ t, fst (Cache_get stored t other) = fst (Cache_get self t other))
       ∧ (∀ e, written = inl e → stored = self)).
Proof.
  intros Hmem Hne. split.
  - intros got self'. rewrite Cache_get_mem by done.
    assert (∀ c, _redis c = None → _mem c !! other = _mem self !! other →
                 _redis c = None ∧ _mem c !! other = _mem self !! other
                 ∧ ∀ t, fst (Cache_get c t other) = fst (Cache_get self t other)) as Hok.
    { intros c Hc Hk. split; [done|]. split; [done|].
      intros t. by apply Cache_get_mem_ext. }
    destruct (_mem self !! key) as [[exp val]|]; [|intros [= _ <-]; by apply Hok].
    destruct (float_lt exp now); intros [= _ <-]; [|by apply Hok].
    apply Hok; [done|]. simpl. by rewrite lookup_delete_ne.
  - intros val ttl written stored. unfold Cache_set, Cache_set_mem. rewrite Hmem.
    destruct (float_of_int ttl) as [e|tf]; intros [= <- <-].
    + split; [done|]. split; [done|]. split; [done|]. done.
    + split; [done|]. simpl. rewrite lookup_insert_ne by done. split; [done|].
      split; [|done]. intros t. apply Cache_get_mem_ext; [done..|].
      simpl. by rewrite lookup_insert_ne.
Qed.

Lemma cache_other_keys_untouched_example :
  _redis stale_cache = None
  ∧ "ip:1.1.1.1" ≠ "ip:8.8.8.8"
  ∧ (∀ got self', Cache_get stale_cache (seconds 1001) "ip:8.8.8.8" = (got, self') →
       _redis self' = None
       ∧ _mem self' !! "ip:1.1.1.1" = _mem stale_cache !! "ip:1.1.1.1"
       ∧ ∀ t, fst (Cache_get self' t "ip:1.1.1.1")
              = fst (Cache_get stale_cache t "ip:1.1.1.1"))
  ∧ (∀ val ttl written stored,
       Cache_set stale_cache (seconds 1001) "ip:8.8.8.8" val ttl = (written, stored) →
       _redis stored = None
       ∧ _mem stored !! "ip:1.1.1.1" = _mem stale_cache !! "ip:1.1.1.1"
       ∧ (∀ t, fst (Cache_get stored t "ip:1.1.1.1")
               = fst (Cache_get stale_cache t "ip:1.1.1.1"))
       ∧ (∀ e, written = inl e → stored = stale_cache)).
Proof.
  assert ("ip:1.1.1.1" ≠ "ip:8.8.8.8") as Hne by discriminate.
  split; [reflexivity|]. split; [exact Hne|].
  exact (cache_other_keys_untouched stale_cache (seconds 1001) "ip:8.8.8.8"
           "ip:1.1.1.1" eq_refl Hne).
Defined.

(** X11. With the in-process backend the last write under a key wins: it
    replaces the record and the expiry of the one before, which a later
    read no longer sees. *)
Theorem cache_last_write_wins (self first second : Cache) (t1 t2 now : spec_float)
    (key : string) (v1 v2 : record) (ttl1 ttl2 : Z) :
  _redis self = None →
  Cache_set self t1 key v1 ttl1 = (ret tt, first) →
  Cache_set first t2 key v2 ttl2 = (ret tt, second) →
  ∃ tf2, float_of_int ttl2 = inr tf2
         ∧ _mem second = <[key := (float_add t2 tf2, v2)]> (_mem self)
         ∧ (float_lt (float_add t2 tf2) now = false →
            Cache_get second now key = (ret (Some (Rec v2)), second))
         ∧ (float_lt (float_add t2 tf2) now = true →
            fst (Cache_get second now key) = ret None).
Proof.
  intros Hmem. unfold Cache_set. rewrite Hmem.
  intros (tf1 & _ & ->)%Cache_set_mem_stored. cbn [_redis _mem]. rewrite Hmem.
  intros (tf2 & Htf2 & ->)%Cache_set_mem_stored. cbn [_redis _mem].
  exists tf2. split; [done|]. split; [apply insert_insert_eq|].
  rewrite Cache_get_mem by done. simpl. rewrite lookup_insert_eq.
  split; intros ->; done.
Qed.

Lemma cache_last_write_wins_example :
  _redis empty_cache = None
  ∧ Cache_set empty_cache (seconds 1000) "ip:8.8.8.8" (bare_record "8.8.8.8" ["a"]) 0
    = (ret tt, stale_cache)
  ∧ Cache_set stale_cache (seconds 1001) "ip:8.8.8.8" google_merged 600
    = (ret tt, snd (Cache_set stale_cache (seconds 1001) "ip:8.8.8.8" google_merged 600))
  ∧ ∃ tf2, float_of_int 600 = inr tf2
           ∧ _mem (snd (Cache_set stale_cache (seconds 1001) "ip:8.8.8.8"
                          google_merged 600))
             = <[ "ip:8.8.8.8" := (float_add (seconds 1001) tf2, google_merged)]>
                 (_mem empty_cache)
           ∧ (float_lt (float_add (seconds 1001) tf2) (seconds 1002) = false →
              Cache_get (snd (Cache_set stale_cache (seconds 1001) "ip:8.8.8.8"
                                google_merged 600)) (seconds 1002) "ip:8.8.8.8"
              = (ret (Some (Rec google_merged)),
                 snd (Cache_set stale_cache (seconds 1001) "ip:8.8.8.8"
                        google_merged 600)))
           ∧ (float_lt (float_add (seconds 1001) tf2) (seconds 1002) = true →
              fst (Cache_get (snd (Cache_set stale_cache (seconds 1001) "ip:8.8.8.8"
                                     google_merged 600)) (seconds 1002) "ip:8.8.8.8")
              = ret None).
Proof.
  split; [reflexivity|]. split; [by vm_compute|]. split; [reflexivity|].
  apply (cache_last_write_wins empty_cache stale_cache
           (snd (Cache_set stale_cache (seconds 1001) "ip:8.8.8.8" google_merged 600))
           (seconds 1000) (seconds 1001) (seconds 1002) "ip:8.8.8.8"
           (bare_record "8.8.8.8" ["a"]) google_merged 0 600);
    [reflexivity | by vm_compute | reflexivity].
Defined.

(** With Redis configured a read never looks at the in-memory mapping
    and never changes the cache. *)
Lemma Cache_get_redis (self : Cache) (rd : Redis) (now : spec_float) (key : string) :
  _redis self = Some rd →
  Cache_get self now key =
    (match redis_get rd key with
     | RedisGetRaises e => raise e
     | RedisGetNil => ret None
     | RedisGetRaw loaded =>
         try_except (v <- loaded ;; ret (Some (Loaded v))) (fun _ => ret None)
     end, self).
Proof.
  intros H. unfold Cache_get. rewrite H. by destruct (redis_get rd key).
Qed.

(** X12. When Redis is configured and SETEX fails, [set] falls back to the
    in-memory mapping, but no read looks there while Redis is
    configured: every read answers what it answered before the write,
    so the record is not read back unless Redis holds it already. *)
Theorem redis_fallback_never_read (self stored : Cache) (rd : Redis)
    (t0 : spec_float) (key : string) (val : record) (ttl : Z) :
  _redis self = Some rd →
  redis_setex_fails rd key ttl val = true →
  Cache_set self t0 key val ttl = (ret tt, stored) →
  _redis stored = Some rd
  ∧ (∃ tf, float_of_int ttl = inr tf
           ∧ _mem stored = <[key := (float_add t0 tf, val)]> (_mem self))
  ∧ (∀ now k, Cache_get stored now k = (fst (Cache_get self now k), stored))
  ∧ (redis_get rd key = RedisGetNil →
     ∀ now, Cache_get stored now key = (ret None, stored)).
Proof.
  intros Hrd Hfail. unfold Cache_set. rewrite Hrd, Hfail.
  intros (tf & Htf & ->)%Cache_set_mem_stored.
  split; [done|]. split; [by exists tf|]. split.
  - intros now k. by rewrite (Cache_get_redis _ rd), (Cache_get_redis self rd).
  - intros Hnil now. by rewrite (Cache_get_redis _ rd), Hnil.
Qed.

Lemma redis_fallback_never_read_example :
  _redis redis_cache = Some redis_refusing
  ∧ redis_setex_fails redis_refusing "ip:8.8.8.8" 600 google_merged = true
  ∧ Cache_set redis_cache (seconds 1000) "ip:8.8.8.8" google_merged 600
    = (ret tt, snd (Cache_set redis_cache (seconds 1000) "ip:8.8.8.8" google_merged 600))
  ∧ _redis (snd (Cache_set redis_cache (seconds 1000) "ip:8.8.8.8" google_merged 600))
    = Some redis_refusing
  ∧ (∃ tf, float_of_int 600 = inr tf
           ∧ _mem (snd (Cache_set redis_cache (seconds 1000) "ip:8.8.8.8"
                          google_merged 600))
             = <[ "ip:8.8.8.8" := (float_add (seconds 1000) tf, google_merged)]>
                 (_mem redis_cache))
  ∧ (∀ now k,
       Cache_get (snd (Cache_set redis_cache (seconds 1000) "ip:8.8.8.8"
                         google_merged 600)) now k
       = (fst (Cache_get redis_cache now k),
          snd (Cache_set redis_cache (seconds 1000) "ip:8.8.8.8" google_merged 600)))
  ∧ (redis_get redis_refusing "ip:8.8.8.8" = RedisGetNil →
     ∀ now,
       Cache_get (snd (Cache_set redis_cache (seconds 1000) "ip:8.8.8.8"
                         google_merged 600)) now "ip:8.8.8.8"
       = (ret None,
          snd (Cache_set redis_cache (seconds 1000) "ip:8.8.8.8" google_merged 600))).
Proof.
  split; [reflexivity|]. split; [reflexivity|]. split; [reflexivity|].
  apply (redis_fallback_never_read redis_cache
           (snd (Cache_set redis_cache (seconds 1000) "ip:8.8.8.8" google_merged 600))
           redis_refusing (seconds 1000) "ip:8.8.8.8" google_merged 600);
    reflexivity.
Defined.

(** ** More on the lookup *)

Lemma set_age_ms_id (m : record) (a : Z) :
  r_age_ms m = Some a → set_age_ms m a = m.
Proof. destruct m. simpl. by intros ->. Qed.

Lemma touch_age_id (c : Cache) (ck : string) (exp : spec_float) (m : record) :
  _redis c = None → _mem c !! ck = Some (exp, m) → r_age_ms m = Some 0 →
  touch_age c ck = c.
Proof.
  destruct c as [mem rd]. simpl. intros -> Hk Hage. unfold touch_age. simpl.
  f_equal. apply alter_id. intros x Hx. rewrite Hk in Hx. injection Hx as <-.
  simpl. by rewrite set_age_ms_id.
Qed.

(** X13. A hit in the in-process cache: the record comes back with age_ms 0,
    whatever the providers would answer; the entry keeps its expiry, so
    a hit does not prolong it; no other key changes. *)
Theorem lookup_hit_keeps_expiry (R : Runtime) (cache : Cache) (ip : string)
    (exp : spec_float) (val : record) :
  _validate_ip R ip = inr ip →
  _redis cache = None →
  _mem cache !! ("ip:" +:+ ip) = Some (exp, val) →
  float_lt exp (time_at_get R) = false →
  ∃ cache',
    lookup_ip R cache ip = (ret (Some (Rec (set_age_ms val 0))), cache')
    ∧ _redis cache' = None
    ∧ _mem cache' !! ("ip:" +:+ ip) = Some (exp, set_age_ms val 0)
    ∧ (∀ k, k ≠ "ip:" +:+ ip → _mem cache' !! k = _mem cache !! k)
    ∧ (∀ R', _validate_ip R' ip = inr ip → time_at_get R' = time_at_get R →
             lookup_ip R' cache ip = lookup_ip R cache ip).
Proof.
  intros Hv Hmem Hk Hlive.
  assert (∀ R', _validate_ip R' ip = inr ip → time_at_get R' = time_at_get R →
                lookup_ip R' cache ip
                = (ret (Some (Rec (set_age_ms val 0))),
                   touch_age cache ("ip:" +:+ ip))) as Hhit.
  { intros R' Hv' Ht. unfold lookup_ip.
    by rewrite Hv', Ht, Cache_get_mem, Hk, Hlive. }
  exists (touch_age cache ("ip:" +:+ ip)).
  split; [by apply Hhit|]. unfold touch_age. rewrite Hmem. simpl.
  split; [done|]. split; [by rewrite lookup_alter_eq, Hk|].
  split; [intros k Hne; by rewrite lookup_alter_ne|].
  intros R' Hv' Ht. by rewrite !Hhit.
Qed.

Lemma lookup_hit_keeps_expiry_example :
  _validate_ip (runtime_of_at client_down 50 (seconds 999)) "8.8.8.8" = inr "8.8.8.8"
  ∧ _redis stale_cache = None
  ∧ _mem stale_cache !! ("ip:" +:+ "8.8.8.8")
    = Some (seconds 1000, bare_record "8.8.8.8" ["a"])
  ∧ float_lt (seconds 1000)
      (time_at_get (runtime_of_at client_down 50 (seconds 999))) = false
  ∧ ∃ cache',
      lookup_ip (runtime_of_at client_down 50 (seconds 999)) stale_cache "8.8.8.8"
      = (ret (Some (Rec (set_age_ms (bare_record "8.8.8.8" ["a"]) 0))), cache')
      ∧ _redis cache' = None
      ∧ _mem cache' !! ("ip:" +:+ "8.8.8.8")
        = Some (seconds 1000, set_age_ms (bare_record "8.8.8.8" ["a"]) 0)
      ∧ (∀ k, k ≠ "ip:" +:+ "8.8.8.8" → _mem cache' !! k = _mem stale_cache !! k)
      ∧ (∀ R', _validate_ip R' "8.8.8.8" = inr "8.8.8.8" →
               time_at_get R' = time_at_get (runtime_of_at client_down 50 (seconds 999)) →
               lookup_ip R' stale_cache "8.8.8.8"
               = lookup_ip (runtime_of_at client_down 50 (seconds 999))
                   stale_cache "8.8.8.8").
Proof.
  split; [reflexivity|]. split; [reflexivity|]. split; [reflexivity|].
  split; [reflexivity|].
  apply (lookup_hit_keeps_expiry (runtime_of_at client_down 50 (seconds 999))
           stale_cache "8.8.8.8" (seconds 1000) (bare_record "8.8.8.8" ["a"]));
    reflexivity.
Defined.

Lemma merged_age_ms (results : list record) (m : record) :
  _merge_first_good results = Some m →
  r_age_ms m = Some 0 ∧ ∃ c, r_confidence m = Some c.
Proof.
  intros Hm. destruct results as [|r0 rs]; [done|].
  destruct (merge_first_good_ranked (r0 :: rs)) as (best & rest & _ & Hm'); [done|].
  rewrite Hm in Hm'. injection Hm' as ->. split; [done|]. by eexists.
Qed.

(** X14. With the in-process backend, the record a lookup returns is the one
    the cache holds for the address afterwards, with age_ms 0; and a
    second lookup made before that entry expires returns the same record
    and leaves the cache as it is, whatever the providers would answer
    by then. *)
Theorem lookup_twice (R R2 : Runtime) (cache cache2 : Cache) (ip : string)
    (m : record) :
  _redis cache = None →
  lookup_ip R cache ip = (ret (Some (Rec m)), cache2) →
  _validate_ip R2 ip = inr ip →
  r_age_ms m = Some 0
  ∧ _redis cache2 = None
  ∧ ∃ exp, _mem cache2 !! ("ip:" +:+ ip) = Some (exp, m)
           ∧ (float_lt exp (time_at_get R2) = false →
              lookup_ip R2 cache2 ip = (ret (Some (Rec m)), cache2)).
Proof.
  intros Hmem Hfirst Hv2.
  assert (r_age_ms m = Some 0 ∧ _redis cache2 = None
          ∧ ∃ exp, _mem cache2 !! ("ip:" +:+ ip) = Some (exp, m))
    as (Hage & Hmem2 & exp & Hk).
  { destruct (_validate_ip R ip) as [e|ip'] eqn:Hv.
    { revert Hfirst. unfold lookup_ip. by rewrite Hv. }
    assert (ip' = ip) as ->.
    { revert Hv. unfold _validate_ip. destruct (ip_address R ip); [done|].
      by intros [= <-]. }
    assert (∀ c1, _redis c1 = None →
              Cache_get cache (time_at_get R) ("ip:" +:+ ip) = (ret None, c1) →
              r_age_ms m = Some 0 ∧ _redis cache2 = None
              ∧ ∃ exp, _mem cache2 !! ("ip:" +:+ ip) = Some (exp, m)) as Hmiss.
    { intros c1 Hc1 Hget. revert Hfirst.
      rewrite (lookup_ip_miss R cache c1 ip None Hv Hget eq_refl).
      destruct (_merge_first_good _) as [m0|] eqn:Hm; [|done].
      cbv zeta. unfold Cache_set. rewrite Hc1.
      destruct (Cache_set_mem c1 _ _ m0 _) as [[e|[]] c2] eqn:Hset; [done|].
      apply Cache_set_mem_stored in Hset as (tf & _ & ->).
      intros [= <- <-]. split; [by apply merged_age_ms in Hm as [? _]|].
      split; [done|]. eexists. simpl. apply lookup_insert_eq. }
    pose proof (Cache_get_mem cache (time_at_get R) ("ip:" +:+ ip) Hmem) as Hget.
    destruct (_mem cache !! _) as [[exp0 val]|] eqn:Hk0; [|by apply (Hmiss cache)].
    destruct (float_lt exp0 (time_at_get R)).
    { apply (Hmiss {| _mem := delete ("ip:" +:+ ip) (_mem cache);
                      _redis := _redis cache |}); done. }
    revert Hfirst. unfold lookup_ip. rewrite Hv, Hget. unfold ret.
    cbn [cached_truthy cached_set_age_ms].
    intros [= <- <-]. split; [done|]. unfold touch_age. rewrite Hmem. simpl.
    split; [done|]. exists exp0. by rewrite lookup_alter_eq, Hk0. }
  split; [done|]. split; [done|]. exists exp. split; [done|].
  intros Hlive. unfold lookup_ip.
  rewrite Hv2, Cache_get_mem, Hk, Hlive by done. unfold ret.
  cbn [cached_truthy cached_set_age_ms]. unfold ret.
  by rewrite (set_age_ms_id m 0), (touch_age_id cache2 _ exp m).
Qed.

Lemma lookup_twice_example :
  _redis empty_cache = None
  ∧ lookup_ip (runtime_of (client_of google_body) 50) empty_cache "8.8.8.8"
    = (ret (Some (Rec google_merged)),
       snd (lookup_ip (runtime_of (client_of google_body) 50) empty_cache "8.8.8.8"))
  ∧ _validate_ip (runtime_of client_down 50) "8.8.8.8" = inr "8.8.8.8"
  ∧ r_age_ms google_merged = Some 0
  ∧ _redis (snd (lookup_ip (runtime_of (client_of google_body) 50)
                   empty_cache "8.8.8.8")) = None
  ∧ ∃ exp,
      _mem (snd (lookup_ip (runtime_of (client_of google_body) 50)
                   empty_cache "8.8.8.8")) !! ("ip:" +:+ "8.8.8.8")
      = Some (exp, google_merged)
      ∧ (float_lt exp (time_at_get (runtime_of client_down 50)) = false →
         lookup_ip (runtime_of client_down 50)
           (snd (lookup_ip (runtime_of (client_of google_body) 50)
                   empty_cache "8.8.8.8")) "8.8.8.8"
         = (ret (Some (Rec google_merged)),
            snd (lookup_ip (runtime_of (client_of google_body) 50)
                   empty_cache "8.8.8.8"))).
Proof.
  split; [reflexivity|]. split; [by vm_compute|]. split; [reflexivity|].
  apply (lookup_twice (runtime_of (client_of google_body) 50)
           (runtime_of client_down 50) empty_cache
           (snd (lookup_ip (runtime_of (client_of google_body) 50)
                   empty_cache "8.8.8.8")) "8.8.8.8" google_merged);
    [reflexivity | by vm_compute | reflexivity].
Defined.

(** The record is served from the cache while every provider is down. *)
Example lookup_served_from_cache :
  fst (lookup_ip (runtime_of client_down 50)
         (snd (lookup_ip (runtime_of (client_of google_body) 50)
                 empty_cache "8.8.8.8")) "8.8.8.8")
  = ret (Some (Rec google_merged))
  ∧ fst (lookup_ip (runtime_of client_down 50) empty_cache "8.8.8.8") = ret None.
Proof. split; by vm_compute. Qed.




(** Each of the four happens: a refused address; a Redis GET that
    raises; a list held by Redis; a default TTL too large for a float,
    while a hosting record, whose TTL is capped at 600, is stored with
    the same default. *)
Example lookup_raises_cases :
  lookup_ip runtime_strict stale_cache "8.8.8.8.8" = (raise ValueError, stale_cache)
  ∧ lookup_ip (runtime_of client_down 50) redis_down "8.8.8.8"
    = (raise TransportError, redis_down)
  ∧ lookup_ip (runtime_of client_down 50) (redis_holding (PStr "x")) "8.8.8.8"
    = (raise TypeError, redis_holding (PStr "x"))
  ∧ lookup_ip (runtime_ttl (client_of address_only_body) (2 ^ 1024)) empty_cache "8.8.8.8"
    = (raise OverflowError, empty_cache)
  ∧ fst (lookup_ip (runtime_ttl (client_of google_body) (2 ^ 1024)) empty_cache "8.8.8.8")
    = ret (Some (Rec google_merged)).
Proof. split_and!; by vm_compute. Qed.

(** What Redis holds need not be a record: a dict comes back with age_ms
    set to 0, whatever its keys, and Redis is not written; a value that is
    false (null, 0, an empty text, list or dict) counts as a miss, and the
    lookup goes to the providers. *)
Example lookup_redis_values :
  lookup_ip (runtime_of client_down 50)
    (redis_holding (PDict [("age_ms", PInt 7); ("ip", PStr "8.8.8.8")])) "8.8.8.8"
  = (ret (Some (Loaded (PDict [("age_ms", PInt 0); ("ip", PStr "8.8.8.8")]))),
     redis_holding (PDict [("age_ms", PInt 7); ("ip", PStr "8.8.8.8")]))
  ∧ lookup_ip (runtime_of client_down 50)
      (redis_holding (PDict [("x", PInt 1)])) "8.8.8.8"
    = (ret (Some (Loaded (PDict [("x", PInt 1); ("age_ms", PInt 0)]))),
       redis_holding (PDict [("x", PInt 1)]))
  ∧ fst (lookup_ip (runtime_of client_down 50) (redis_holding (PDict [])) "8.8.8.8")
    = ret None
  ∧ fst (lookup_ip (runtime_of (client_of google_body) 50)
           (redis_holding (PInt 0)) "8.8.8.8")
    = ret (Some (Rec google_merged))
  ∧ redis_written <$> _redis (snd (lookup_ip (runtime_of (client_of google_body) 50)
                                     (redis_holding PNone) "8.8.8.8"))
    = Some [("ip:8.8.8.8", 600, google_merged)].
Proof. split_and!; by vm_compute. Qed.

(** ** More on the hedging *)

(** Every record the hedge collects is what one of the three adapters
    returned for this address and client. *)
Lemma hedge_result_from_adapter (R : Runtime) (ip : string) (r : record) :
  r ∈ results (hedge R ip) →
  adapter_output (rt_float_of_str R) (rt_repr R) (environ R) ip (client R) r.
Proof.
  unfold hedge; simpl.
  intros (t & Ht & Hr)%list_elem_of_In%in_flat_map.
  apply in_flat_map in Ht as (i & _ & Ht). apply list_elem_of_In in Ht.
  unfold nth_task in Ht. apply list_elem_of_filter in Ht as [_ Ht].
  apply list_elem_of_filter in Ht as [_ Ht].
  assert (t_result t = inr (Some r)) as Hres.
  { destruct (t_result t) as [e|[r'|]]; simpl in Hr; [done| |done].
    by destruct Hr as [->|[]]. }
  unfold adapter_output.
  apply elem_of_cons in Ht as [->|Ht]; [by left|].
  apply elem_of_cons in Ht as [->|Ht]; [right; by left|].
  apply list_elem_of_singleton in Ht as ->. right. by right.
Qed.

(** X16. The sources of the record a lookup fetches are provider tags, at most
    three; "ipinfo.io" and "bigdatacloud" are among them only when the
    token or key is configured; and the body is that of a record one
    adapter returned. *)
Theorem merged_sources_are_providers (R : Runtime) (ip : string) (m : record) :
  _merge_first_good (results (hedge R ip)) = Some m →
  (∀ s, s ∈ r_source m → s ∈ provider_tags)
  ∧ ("ipinfo.io" ∈ r_source m → getenv (environ R) "IPINFO_TOKEN" "" ≠ "")
  ∧ ("bigdatacloud" ∈ r_source m → getenv (environ R) "BDC_KEY" "" ≠ "")
  ∧ (length (r_source m) <= 3)%nat
  ∧ ∃ best,
      adapter_output (rt_float_of_str R) (rt_repr R) (environ R) ip (client R) best
      ∧ same_body m best.
Proof.
  intros Hm.
  destruct (results (hedge R ip)) as [|r0 rs] eqn:Hres; [done|].
  destruct (merge_first_good_ranked (r0 :: rs)) as (best & rest & Hs & Hm'); [done|].
  rewrite Hm in Hm'. injection Hm' as ->.
  assert (∀ c, c ∈ best :: rest →
            adapter_output (rt_float_of_str R) (rt_repr R) (environ R) ip (client R) c)
    as Hall.
  { intros c Hc. apply hedge_result_from_adapter. rewrite Hres.
    by rewrite <- (sort_desc_perm score (r0 :: rs)), Hs. }
  assert (∀ s, s ∈ r_source (merged_of best (best :: rest)) →
            ∃ c, adapter_output (rt_float_of_str R) (rt_repr R) (environ R) ip
                   (client R) c ∧ r_source c = [s]) as Hsrc.
  { intros s. rewrite source_of_merged. unfold fromkeys.
    rewrite fromkeys_from_elem, elem_of_concat_sources.
    intros [(c & Hc & Hin) _]. exists c. split; [by apply Hall|].
    destruct (adapter_output_source _ _ _ _ _ _ (Hall c Hc)) as [H|[[H _]|[H _]]];
      rewrite H in Hin |- *; by apply list_elem_of_singleton in Hin as ->. }
  assert (∀ s, s ∈ r_source (merged_of best (best :: rest)) → s ∈ provider_tags)
    as Htags.
  { intros s (c & Hc & Hs')%Hsrc.
    destruct (adapter_output_source _ _ _ _ _ _ Hc) as [H|[[H _]|[H _]]];
      rewrite H in Hs'; injection Hs' as <-; unfold provider_tags; set_solver. }
  split; [done|]. split; [|split; [|split]].
  - intros (c & Hc & Hs')%Hsrc.
    destruct (adapter_output_source _ _ _ _ _ _ Hc) as [H|[[H ?]|[H _]]];
      rewrite H in Hs'; by try discriminate Hs'.
  - intros (c & Hc & Hs')%Hsrc.
    destruct (adapter_output_source _ _ _ _ _ _ Hc) as [H|[[H _]|[H ?]]];
      rewrite H in Hs'; by try discriminate Hs'.
  - change 3%nat with (length provider_tags).
    apply submseteq_length, NoDup_submseteq; [apply fromkeys_from_NoDup | done].
  - exists best. split; [apply Hall; by left | apply merged_of_same_body].
Qed.

Lemma merged_sources_are_providers_example :
  _merge_first_good (results (hedge (runtime_of (client_of google_body) 50) "8.8.8.8"))
  = Some google_merged
  ∧ (∀ s, s ∈ r_source google_merged → s ∈ provider_tags)
  ∧ ("ipinfo.io" ∈ r_source google_merged →
     getenv (environ (runtime_of (client_of google_body) 50)) "IPINFO_TOKEN" "" ≠ "")
  ∧ ("bigdatacloud" ∈ r_source google_merged →
     getenv (environ (runtime_of (client_of google_body) 50)) "BDC_KEY" "" ≠ "")
  ∧ (length (r_source google_merged) <= 3)%nat
  ∧ ∃ best,
      adapter_output (rt_float_of_str (runtime_of (client_of google_body) 50))
        (rt_repr (runtime_of (client_of google_body) 50))
        (environ (runtime_of (client_of google_body) 50)) "8.8.8.8"
        (client (runtime_of (client_of google_body) 50)) best
      ∧ same_body google_merged best.
Proof.
  assert (_merge_first_good
            (results (hedge (runtime_of (client_of google_body) 50) "8.8.8.8"))
          = Some google_merged) as H by (by vm_compute).
  split; [exact H|].
  exact (merged_sources_are_providers (runtime_of (client_of google_body) 50)
           "8.8.8.8" google_merged H).
Defined.

(** ** The construction of the cache *)

(** X17. Making the cache never raises and starts with an empty mapping. With
    no [REDIS_URL], or when the Redis client cannot be made, the cache is
    the in-process one and every first read misses; otherwise it uses
    the client it was given. *)
Theorem cache_init_fallback (REDIS_URL : string) (from_url : string -> exc Redis) :
  ∃ c, Cache_init REDIS_URL from_url = inr c
       ∧ _mem c = ∅
       ∧ (REDIS_URL = "" ∨ (∃ e, from_url REDIS_URL = inl e) →
          _redis c = None ∧ ∀ now k, Cache_get c now k = (ret None, c))
       ∧ (∀ rd, REDIS_URL ≠ "" → from_url REDIS_URL = inr rd → _redis c = Some rd).
Proof.
  unfold Cache_init.
  destruct (String.eqb_spec REDIS_URL "") as [->|Hne]; cbn [negb bind ret].
  - eexists. split; [done|]. split; [done|]. split; [|done].
    intros _. split; [done|]. intros now k. by rewrite Cache_get_mem.
  - destruct (from_url REDIS_URL) as [e|rd]; cbn [bind try_except ret];
      (eexists; split; [done|]; split; [done|]).
    + split; [|done]. intros _. split; [done|]. intros now k.
      by rewrite Cache_get_mem.
    + split; [|by intros rd' _ [= <-]]. by intros [?|[e ?]].
Qed.
